(** * CalvingMIP experiment 1 post-processing

    A shallow embedding of [examples/marine/calvingmip/postprocess_exp1.py]:
    the script reads a PISM snapshot and a scalar time series, plans eight
    radial transects, samples the fields along them into preallocated
    buffers and writes the CalvingMIP exchange file.

    Numbers are IEEE binary64 ([PrimFloat.float]), as in numpy; grid indices
    and mask categories are [Z]; arrays are lists (of lists); every Python
    exception is a [Raise] in the [result] monad. *)

From Stdlib Require Import ZArith Lia List String.
From Stdlib Require Import PrimFloat SpecFloat FloatOps.
From stdpp Require Import base list gmap strings pretty.

Local Open Scope Z_scope.

(** ** Exceptions and the error monad *)

Inductive exn :=
| KeyError (name : string)
| IndexError
| ValueError
| OverflowError
| HelperError (msg : string).

Inductive result (A : Type) :=
| Ok (a : A)
| Raise (e : exn).
Arguments Ok {A} a.
Arguments Raise {A} e.

#[global] Instance result_ret : MRet result := λ A a, Ok a.
#[global] Instance result_bind : MBind result := λ A B k m,
  match m with
  | Ok a => k a
  | Raise e => Raise e
  end.

(** [try: body except: handler] with a bare [except]: whatever the body
    raises is discarded and the handler runs. *)
Definition try_except {A} (body handler : result A) : result A :=
  match body with
  | Ok a => Ok a
  | Raise _ => handler
  end.

(** [for k, a in enumerate(l, start=k0): s = body(s, k, a)] *)
Fixpoint for_enumerate {A St} (body : St → nat → A → result St)
    (k0 : nat) (s : St) (l : list A) : result St :=
  match l with
  | [] => Ok s
  | a :: l' => s' ← body s k0 a; for_enumerate body (S k0) s' l'
  end.

(** [for i in range(n): s = body(s, i)] *)
Definition for_range {St} (body : St → nat → result St) (n : nat) (s : St)
    : result St :=
  for_enumerate (λ s _ i, body s i) 0%nat s (seq 0 n).

(** ** Floating point and numpy primitives *)

Module Np.

(** int -> float64 conversion, round to nearest even. *)
Definition float_of_Z (z : Z) : float :=
  SF2Prim (binary_normalize prec emax z 0 false).

(** [np.floor]: identity on zeros, infinities, NaN and on floats with a
    non-negative exponent (already integral). *)
Definition floor (x : float) : float :=
  match Prim2SF x with
  | S754_finite s m e =>
      if 0 <=? e then x
      else float_of_Z (Z.shiftl (cond_Zopp s (Z.pos m)) e)
  | _ => x
  end.

(** Python's [int(x)] on a float: truncation toward zero; NaN is a
    ValueError and an infinity an OverflowError. *)
Definition int (x : float) : result Z :=
  match Prim2SF x with
  | S754_zero _ => Ok 0
  | S754_finite s m e => Ok (cond_Zopp s (Z.shiftl (Z.pos m) e))
  | S754_infinity _ => Raise OverflowError
  | S754_nan => Raise ValueError
  end.

(** [a[idx]] on one axis: a negative index counts from the end, anything
    outside [-n, n) is an IndexError. *)
Definition getitem {A} (a : list A) (idx : Z) : result A :=
  let n := Z.of_nat (length a) in
  let pos := if idx <? 0 then idx + n else idx in
  if (0 <=? pos) && (pos <? n) then
    match a !! Z.to_nat pos with
    | Some v => Ok v
    | None => Raise IndexError
    end
  else Raise IndexError.

(** [a[idx:]]: slicing never raises, the start is clipped. *)
Definition slice_from {A} (a : list A) (idx : Z) : list A :=
  let n := Z.of_nat (length a) in
  let start := if idx <? 0 then Z.max 0 (idx + n) else Z.min idx n in
  drop (Z.to_nat start) a.

(** [a[0:cut]] *)
Definition slice_to {A} (a : list A) (cut : nat) : list A := take cut a.

(** [np.zeros([r, c])] *)
Definition zeros (r c : nat) : list (list float) :=
  replicate r (replicate c PrimFloat.zero).

(** [np.shape] of a two-dimensional array. *)
Definition shape {A} (a : list (list A)) : nat * nat :=
  (length a, length (default [] (head a))).

(** [a[l, k] = v] and [a[l, k]] for [l, k >= 0]. *)
Definition setitem2 (a : list (list float)) (l k : nat) (v : float)
    : result (list (list float)) :=
  match a !! l with
  | Some row =>
      if decide (k < length row)%nat then Ok (<[l := <[k := v]> row]> a)
      else Raise IndexError
  | None => Raise IndexError
  end.

Definition getitem2 (a : list (list float)) (l k : nat) : result float :=
  match a !! l with
  | Some row =>
      match row !! k with
      | Some v => Ok v
      | None => Raise IndexError
      end
  | None => Raise IndexError
  end.

End Np.

Abbreviation array1 := (list float).
Abbreviation array2 := (list (list float)).
Abbreviation imask := (list (list Z)).

(** ** Constants of the script *)

Definition secperyear : float := Np.float_of_Z (365 * 24 * 3600).
Definition resolution : float := 5%float.
Definition dkm : float := 5%float.
Definition tex : Z := -1.
Definition ti : Z := -6.
Definition capacity : nat := 300.

(** ** The input datasets

    [datnc.variables] is a dictionary from names to arrays.  The model
    sorts the variables by rank and element type, as the script reads
    them: one-dimensional float arrays (axes and scalar series), float
    fields over (time, row, column), and the integer mask over the same
    three axes, with its element type.  A name missing where the script
    reads it is a KeyError. *)

(** The integer element types of a netCDF variable, as numpy names them.
    An integer array keeps its element type under arithmetic with a
    Python integer, and the result wraps around at the type's bounds. *)
Inductive dtype :=
  int8 | uint8 | int16 | uint16 | int32 | uint32 | int64 | uint64.

Definition bits (dt : dtype) : Z :=
  match dt with
  | int8 | uint8 => 8
  | int16 | uint16 => 16
  | int32 | uint32 => 32
  | int64 | uint64 => 64
  end.

Definition signed (dt : dtype) : bool :=
  match dt with
  | int8 | int16 | int32 | int64 => true
  | uint8 | uint16 | uint32 | uint64 => false
  end.

Definition dtype_min (dt : dtype) : Z :=
  if signed dt then - 2 ^ (bits dt - 1) else 0.

Definition dtype_max (dt : dtype) : Z :=
  if signed dt then 2 ^ (bits dt - 1) - 1 else 2 ^ bits dt - 1.

(** The value an element of type [dt] holds when the exact result of an
    operation is [z]. *)
Definition wrap (dt : dtype) (z : Z) : Z :=
  if signed dt
  then (z + 2 ^ (bits dt - 1)) mod 2 ^ bits dt - 2 ^ (bits dt - 1)
  else z mod 2 ^ bits dt.

(** An integer variable over (time, row, column). *)
Record ivar := { iv_dtype : dtype; iv_data : list imask }.

Record Dataset := {
  vars1 : gmap string array1;
  vars3 : gmap string (list array2);
  varsm : gmap string ivar
}.

Definition variables {A} (m : gmap string A) (name : string) : result A :=
  match m !! name with
  | Some v => Ok v
  | None => Raise (KeyError name)
  end.

(** [a * secperyear] on a two-dimensional array. *)
Definition scale (a : array2) : array2 :=
  fmap (M := list) (λ v, PrimFloat.mul v secperyear) <$> a.

(** [time / secperyear - 110000.0] *)
Definition model_year (t : float) : float :=
  PrimFloat.sub (PrimFloat.div t secperyear) 110000%float.

(** [datnc.variables[name][tex, :]] *)
Definition read_field (ds : Dataset) (name : string) : result array2 :=
  v ← variables (vars3 ds) name; Np.getitem v tex.

(** The [try] block of lines 31-34 and its [except] block, lines 35-38. *)
Definition read_primary (ds : Dataset) : result (array2 * array2 * array2) :=
  xvm ← read_field ds "xvelmean";
  yvm ← read_field ds "yvelmean";
  thk ← read_field ds "lithk";
  Ok (scale xvm, scale yvm, thk).

Definition read_fallback (ds : Dataset) : result (array2 * array2 * array2) :=
  xvm ← read_field ds "u_ssa";
  yvm ← read_field ds "v_ssa";
  thk ← read_field ds "thk";
  Ok (scale xvm, scale yvm, thk).

Definition resolve_fields (ds : Dataset) : result (array2 * array2 * array2) :=
  try_except (read_primary ds) (read_fallback ds).

(** [datnc.variables["mask"][tex, :] - 1]: the subtraction is done in
    the element type of the stored mask. *)
Definition remap_mask (dt : dtype) (m : imask) : imask :=
  fmap (M := list) (λ v, wrap dt (v - 1)) <$> m.

Definition read_mask (ds : Dataset) : result imask :=
  v ← variables (varsm ds) "mask";
  m ← Np.getitem (iv_data v) tex;
  Ok (remap_mask (iv_dtype v) m).

Record snapshot := {
  exp1_x : array1;
  exp1_y : array1;
  exp1_t : array1;
  exp1_xvm : array2;
  exp1_yvm : array2;
  exp1_thk : array2;
  exp1_mask : imask;
  exp1_crate : list array2;
  exp1_topg : array2
}.

(** Lines 27-42. *)
Definition read_snapshot (ds : Dataset) : result snapshot :=
  x ← variables (vars1 ds) "x";
  y ← variables (vars1 ds) "y";
  tm ← variables (vars1 ds) "time";
  t ← Np.getitem tm tex;
  '(xvm, yvm, thk) ← resolve_fields ds;
  mask ← read_mask ds;
  crate ← variables (vars3 ds) "calvingmip_calving_rate";
  topg ← read_field ds "topg";
  Ok {| exp1_x := x; exp1_y := y; exp1_t := [model_year t];
        exp1_xvm := xvm; exp1_yvm := yvm; exp1_thk := thk;
        exp1_mask := mask;
        exp1_crate := scale <$> Np.slice_from crate tex;
        exp1_topg := topg |}.

Record timeseries := {
  exp1_ts_t : array1;
  exp1_ts_afl : array1;
  exp1_ts_agr : array1;
  exp1_ts_lim : array1;
  exp1_ts_limnsw : array1;
  exp1_ts_tendcf : array1;
  exp1_ts_tendgf : array1
}.

(** [datnc.variables[name][ti]] *)
Definition read_scalar (ds : Dataset) (name : string) : result float :=
  v ← variables (vars1 ds) name; Np.getitem v ti.

(** Lines 46-55. *)
Definition read_timeseries (ds : Dataset) : result timeseries :=
  t ← read_scalar ds "time";
  afl ← read_scalar ds "iareafl";
  agr ← read_scalar ds "iareagr";
  lim ← read_scalar ds "lim";
  limnsw ← read_scalar ds "limnsw";
  tendcf ← read_scalar ds "tendlicalvf";
  tendgf ← read_scalar ds "tendligroundf";
  Ok {| exp1_ts_t := [model_year t]; exp1_ts_afl := [afl];
        exp1_ts_agr := [agr]; exp1_ts_lim := [lim];
        exp1_ts_limnsw := [limnsw];
        exp1_ts_tendcf := [PrimFloat.mul tendcf secperyear];
        exp1_ts_tendgf := [PrimFloat.mul tendgf secperyear] |}.

(** ** The transects (lines 60-75)

    [Mp = int((Mx-1)/2.0)]: the division is exact in binary64 for every
    array extent (below 2^53) and [int] truncates toward zero, which on
    integers is [Z.quot]. *)

Definition Mp (Mx : Z) : Z := Z.quot (Mx - 1) 2.

(** The expression as it is written, evaluated in binary64. *)
Definition Mp_as_written (Mx : Z) : result Z :=
  Np.int (PrimFloat.div (Np.float_of_Z (Mx - 1)) 2%float).

Record transect := { t_start : Z * Z; t_end : Z * Z }.

Section Planner.
Variables Mx My : Z.

Definition points_C := {| t_start := (Mp Mx, Mp Mx); t_end := (Mx - 2, Mp Mx) |}.
Definition points_B := {| t_start := (Mp Mx, Mp Mx); t_end := (Mx - 2, My - 2) |}.
Definition points_A := {| t_start := (Mp Mx, Mp Mx); t_end := (Mp Mx, My - 2) |}.
Definition points_H := {| t_start := (Mp Mx, Mp Mx); t_end := (2, My - 2) |}.

Definition points_G := {| t_start := (Mp Mx, Mp Mx); t_end := (2, Mp Mx) |}.
Definition points_F := {| t_start := (Mp Mx, Mp Mx); t_end := (2, 2) |}.
Definition points_E := {| t_start := (Mp Mx, Mp Mx); t_end := (Mp Mx, 2) |}.
Definition points_D := {| t_start := (Mp Mx, Mp Mx); t_end := (Mx - 2, 2) |}.

Definition transects : list transect :=
  [points_A; points_B; points_C; points_D;
   points_E; points_F; points_G; points_H].
End Planner.

Definition point_names : list string :=
  ["A"; "B"; "C"; "D"; "E"; "F"; "G"; "H"]%string.

(** [dp = np.float(dkm) / np.float(resolution)] *)
Definition dp : float := PrimFloat.div dkm resolution.

(** ** The coordinate meshes (lines 108-114) *)

Definition build_mesh (Mx My : nat) (x y : array1) : result (array2 * array2) :=
  xm ← for_range (λ m i, v ← Np.getitem x (Z.of_nat i);
                          Ok (<[i := replicate My v]> m))
                 Mx (Np.zeros Mx My);
  ym ← for_range (λ m j, v ← Np.getitem y (Z.of_nat j);
                          Ok ((λ row, <[j := v]> row) <$> m))
                 My (Np.zeros Mx My);
  Ok (xm, ym).

(** ** Sampling along the transects (lines 96-139) *)

Definition point : Type := float * float.

Record buffers := {
  xav : array2; yav : array2;
  Hav : array2; mav : array2; uav : array2; vav : array2;
  sav : array2
}.

(** Lines 99-106: every buffer is [np.zeros([len(trans), 300])]. *)
Definition allocate (n : nat) : buffers :=
  {| xav := Np.zeros n capacity; yav := Np.zeros n capacity;
     Hav := Np.zeros n capacity; mav := Np.zeros n capacity;
     uav := Np.zeros n capacity; vav := Np.zeros n capacity;
     sav := Np.zeros n capacity |}.

(** [x ** y] on a float64 scalar: numpy hands both operands to [pow] of
    the C library it was built with.  IEEE 754 does not fix the result
    of [pow], and for the exponent 2 it may differ from the product
    [x * x] in the last bit: the development is parametric in the
    library. *)
Class Libm := { npy_pow : float → float → float }.

(** [np.sqrt(x**2 + y**2)] on float64 scalars. *)
Definition hypot {libm : Libm} (x y : float) : float :=
  PrimFloat.sqrt (PrimFloat.add (npy_pow x 2%float) (npy_pow y 2%float)).

(** The decomposition of a sample point, lines 121-124. *)
Record cell := { c_i : Z; c_j : Z; c_di : float; c_dj : float }.

Definition decompose (p : point) : result cell :=
  i ← Np.int (Np.floor p.2);
  j ← Np.int (Np.floor p.1);
  Ok {| c_i := i; c_j := j;
        c_di := PrimFloat.sub p.1 (Np.floor p.1);
        c_dj := PrimFloat.sub p.2 (Np.floor p.2) |}.

(** The seven values stored for one sample point, and the buffers seen
    as one table of such values. *)
Record sample := {
  smp_x : float; smp_y : float; smp_s : float;
  smp_H : float; smp_m : float; smp_u : float; smp_v : float
}.

Definition sample0 : sample :=
  {| smp_x := 0; smp_y := 0; smp_s := 0; smp_H := 0;
     smp_m := 0; smp_u := 0; smp_v := 0 |}.

Definition pack (cells : list (list sample)) : buffers :=
  {| xav := fmap (M := list) smp_x <$> cells;
     yav := fmap (M := list) smp_y <$> cells;
     Hav := fmap (M := list) smp_H <$> cells;
     mav := fmap (M := list) smp_m <$> cells;
     uav := fmap (M := list) smp_u <$> cells;
     vav := fmap (M := list) smp_v <$> cells;
     sav := fmap (M := list) smp_s <$> cells |}.

(** A buffer row: the samples of a transect, then the zeros it was
    allocated with. *)
Definition padded (ss : list sample) : list sample :=
  ss ++ replicate (capacity - length ss) sample0.

(** The state of the script when it reaches line 143. *)
Record sampled := {
  s_snap : snapshot;
  s_ts : timeseries;
  s_trans : list (list point);
  s_buf : buffers
}.

(** ** Writing the exchange file (lines 143-481)

    Only what the script stores is modelled: the data of every variable
    and the category attributes of the mask variables.  Units, standard
    names and the global attributes are constant strings. *)

(** Lines 448-473. *)
Definition flag_values : string := "1, 2, 3".
Definition flag_meanings : string :=
  "1=grounded ice, 2=floating ice, 3=open ocean".

(** The category table the two attribute strings spell out. *)
Definition mask_categories : list (Z * string) :=
  [(1, "grounded ice"); (2, "floating ice"); (3, "open ocean")]%string.

Definition category (code : Z) : option string :=
  (list_to_map mask_categories : gmap Z string) !! code.

Definition render_values (t : list (Z * string)) : string :=
  String.concat ", " ((λ e, pretty e.1) <$> t).

Definition render_meanings (t : list (Z * string)) : string :=
  String.concat ", " ((λ e, pretty e.1 +:+ "=" +:+ e.2) <$> t).

(** [a[a == 0.0] = np.nan], lines 169-171. *)
Definition nan_if_zero (v : float) : float :=
  if PrimFloat.eqb v 0%float then PrimFloat.nan else v.

Definition normalize (a : array2) : array2 :=
  fmap (M := list) nan_if_zero <$> a.

(** The six variables of one profile and the size of its dimension. *)
Record profile_vars := {
  p_size : nat;
  p_x : array1;
  p_s : array1;
  p_lithk : array1;
  p_mask : array1;
  p_xvelmean : array1;
  p_yvelmean : array1;
  p_flag_values : string;
  p_flag_meanings : string
}.

Record ncfile := {
  nc_Time : array1; nc_X : array1; nc_Y : array1;
  nc_xvelmean : array2; nc_yvelmean : array2; nc_lithk : array2;
  nc_mask : array2; nc_calverate : list array2; nc_topg : array2;
  nc_iareafl : array1; nc_iareagr : array1;
  nc_lim : array1; nc_limnsw : array1;
  nc_tendlicalvf : array1; nc_tendligroundf : array1;
  nc_profiles : list (string * profile_vars);
  nc_flag_values : string;
  nc_flag_meanings : string
}.

(** One of the eight blocks of lines 173-235 and 257-319:
    [size = cut = np.shape(trans[l])[0]], every variable is the buffer row
    [l] cut to [0:cut]; the variable 'Profile X' receives [sav] as well. *)
Definition write_profile (trans : list (list point)) (b : buffers)
    (l : nat) (name : string) : result (string * profile_vars) :=
  po ← Np.getitem trans (Z.of_nat l);
  let cut := length po in
  s ← Np.getitem (sav b) (Z.of_nat l);
  H ← Np.getitem (Hav b) (Z.of_nat l);
  m ← Np.getitem (mav b) (Z.of_nat l);
  u ← Np.getitem (uav b) (Z.of_nat l);
  v ← Np.getitem (vav b) (Z.of_nat l);
  Ok (name,
      {| p_size := cut;
         p_x := Np.slice_to s cut; p_s := Np.slice_to s cut;
         p_lithk := Np.slice_to H cut; p_mask := Np.slice_to m cut;
         p_xvelmean := Np.slice_to u cut; p_yvelmean := Np.slice_to v cut;
         p_flag_values := flag_values;
         p_flag_meanings := flag_meanings |}).

(** The profile variables that hold exactly the samples [ss]. *)
Definition profile_of (ss : list sample) : profile_vars :=
  {| p_size := length ss;
     p_x := smp_s <$> ss; p_s := smp_s <$> ss;
     p_lithk := smp_H <$> ss; p_mask := smp_m <$> ss;
     p_xvelmean := smp_u <$> ss; p_yvelmean := smp_v <$> ss;
     p_flag_values := flag_values;
     p_flag_meanings := flag_meanings |}.

Fixpoint write_profiles (trans : list (list point)) (b : buffers)
    (l : nat) (names : list string) : result (list (string * profile_vars)) :=
  match names with
  | [] => Ok []
  | name :: names' =>
      pv ← write_profile trans b l name;
      pvs ← write_profiles trans b (S l) names';
      Ok (pv :: pvs)
  end.

(** Lines 169-171 and 239-255: the zero cells of thickness and velocity
    become NaN, then every global variable receives its array.  Each
    field of the record is the array the script assigns to the
    variable. *)
Definition file_of (sn : snapshot) (tsr : timeseries)
    (profiles : list (string * profile_vars)) : ncfile :=
  {| nc_Time := exp1_t sn; nc_X := exp1_x sn; nc_Y := exp1_y sn;
     nc_xvelmean := normalize (exp1_xvm sn);
     nc_yvelmean := normalize (exp1_yvm sn);
     nc_lithk := normalize (exp1_thk sn);
     nc_mask := fmap (M := list) Np.float_of_Z <$> exp1_mask sn;
     nc_calverate := exp1_crate sn;
     nc_topg := exp1_topg sn;
     nc_iareafl := exp1_ts_afl tsr; nc_iareagr := exp1_ts_agr tsr;
     nc_lim := exp1_ts_lim tsr; nc_limnsw := exp1_ts_limnsw tsr;
     nc_tendlicalvf := exp1_ts_tendcf tsr;
     nc_tendligroundf := exp1_ts_tendgf tsr;
     nc_profiles := profiles;
     nc_flag_values := flag_values;
     nc_flag_meanings := flag_meanings |}.

(** Lines 173-229: the sizes of the eight profile dimensions,
    [np.shape(trans[l])[0]]. *)
Fixpoint profile_dimensions (trans : list (list point)) (l : nat)
    (names : list string) : result (list nat) :=
  match names with
  | [] => Ok []
  | _ :: names' =>
      po ← Np.getitem trans (Z.of_nat l);
      sizes ← profile_dimensions trans (S l) names';
      Ok (length po :: sizes)
  end.

(** [var[:] = data] for a variable over ('Time', 'Y', 'X'), whose shape
    is (1, Y, X) with [Y = len(exp1_y)] and [X = len(exp1_x)] (lines
    145-160).  netCDF4 takes data of shape (n, r, c) if they have as
    many elements as the variable (they are reshaped) or can be
    broadcast to its shape; otherwise the assignment raises ValueError.
    A two-dimensional array of shape (r, c) is treated like (1, r, c).
    A dimension created with size 0 (an empty axis, an empty transect)
    is unlimited in netCDF4; the model does not tell it apart from a
    fixed one, and the statements on how the writing ends are made for
    axes and transects that are not empty. *)
Definition conforms (Y X n r c : nat) : bool :=
  (n * r * c =? Y * X)%nat
  || ((n =? 1)%nat && ((r =? Y)%nat || (r =? 1)%nat)
                   && ((c =? X)%nat || (c =? 1)%nat)).

Definition assign2 {A} (Y X : nat) (data : list (list A)) : result unit :=
  let '(r, c) := Np.shape data in
  if conforms Y X 1 r c then Ok tt else Raise ValueError.

Definition assign3 {A} (Y X : nat) (data : list (list (list A)))
    : result unit :=
  let '(r, c) := Np.shape (default [] (head data)) in
  if conforms Y X (length data) r c then Ok tt else Raise ValueError.

(** Lines 243-248, after the zero cells became NaN. *)
Definition assign_fields (sn : snapshot) : result unit :=
  let Y := length (exp1_y sn) in
  let X := length (exp1_x sn) in
  _ ← assign2 Y X (normalize (exp1_xvm sn));
  _ ← assign2 Y X (normalize (exp1_yvm sn));
  _ ← assign2 Y X (normalize (exp1_thk sn));
  _ ← assign2 Y X (exp1_mask sn);
  _ ← assign3 Y X (exp1_crate sn);
  assign2 Y X (exp1_topg sn).

(** Lines 145-319 in the order of the script: the profile dimensions,
    the assignments to the global variables, the profile variables.  The
    axes, the time and the scalar series are one-dimensional arrays of
    the size of their dimension. *)
Definition write (st : sampled) : result ncfile :=
  _ ← profile_dimensions (s_trans st) 0%nat point_names;
  _ ← assign_fields (s_snap st);
  profiles ← write_profiles (s_trans st) (s_buf st) 0%nat point_names;
  Ok (file_of (s_snap st) (s_ts st) profiles).

(** How a run ends: an exception before [nc.Dataset(exp_outfile, 'w')]
    leaves no file behind; one raised later leaves the file it opened. *)
Inductive outcome :=
| Crashed (e : exn)
| CrashedWriting (e : exn)
| Saved (f : ncfile).

Definition file_created (o : outcome) : bool :=
  match o with
  | Crashed _ => false
  | CrashedWriting _ | Saved _ => true
  end.

Section Pipeline.
Context {libm : Libm}.

(** The three functions of [postprocess_helper] the script calls.  Their
    code lives in that module: the development is parametric in them,
    and each may raise. *)
Variable get_troughs : list transect → float → result (list (list point)).
Variable interpolate_along_transect :
  array2 → Z → Z → float → float → result float.
Variable nearest_along_transect :
  imask → Z → Z → float → float → result Z.

(** *** One sample point: the body of the inner loop, lines 121-137 *)

Definition sample_point (sn : snapshot) (exp1_xm exp1_ym : array2)
    (l : nat) (b : buffers) (k : nat) (p : point) : result buffers :=
  c ← decompose p;
  let '{| c_i := i; c_j := j; c_di := di; c_dj := dj |} := c in
  x ← interpolate_along_transect exp1_ym i j di dj;
  xav' ← Np.setitem2 (xav b) l k x;
  y ← interpolate_along_transect exp1_xm i j di dj;
  yav' ← Np.setitem2 (yav b) l k y;
  xr ← Np.getitem2 xav' l k;
  yr ← Np.getitem2 yav' l k;
  sav' ← Np.setitem2 (sav b) l k (hypot xr yr);
  H ← interpolate_along_transect (exp1_thk sn) i j di dj;
  Hav' ← Np.setitem2 (Hav b) l k H;
  u ← interpolate_along_transect (exp1_xvm sn) i j di dj;
  uav' ← Np.setitem2 (uav b) l k u;
  v ← interpolate_along_transect (exp1_yvm sn) i j di dj;
  vav' ← Np.setitem2 (vav b) l k v;
  m ← nearest_along_transect (exp1_mask sn) i j di dj;
  mav' ← Np.setitem2 (mav b) l k (Np.float_of_Z m);
  Ok {| xav := xav'; yav := yav'; Hav := Hav'; mav := mav';
        uav := uav'; vav := vav'; sav := sav' |}.

(** One transect: the inner loop, then [profiles[point_names[l]] = profile]
    (the dictionary is never read again; the subscript of [point_names]
    raises for a ninth transect). *)
Definition sample_transect (sn : snapshot) (exp1_xm exp1_ym : array2)
    (b : buffers) (l : nat) (po : list point) : result buffers :=
  b' ← for_enumerate (sample_point sn exp1_xm exp1_ym l) 0%nat b po;
  _ ← Np.getitem point_names (Z.of_nat l);
  Ok b'.

Definition sample_all (sn : snapshot) (exp1_xm exp1_ym : array2)
    (trans : list (list point)) : result buffers :=
  for_enumerate (sample_transect sn exp1_xm exp1_ym) 0%nat
    (allocate (length trans)) trans.

(** What one sample point contributes to the seven buffers. *)
Definition point_sample (sn : snapshot) (exp1_xm exp1_ym : array2)
    (p : point) : result sample :=
  c ← decompose p;
  let '{| c_i := i; c_j := j; c_di := di; c_dj := dj |} := c in
  x ← interpolate_along_transect exp1_ym i j di dj;
  y ← interpolate_along_transect exp1_xm i j di dj;
  H ← interpolate_along_transect (exp1_thk sn) i j di dj;
  u ← interpolate_along_transect (exp1_xvm sn) i j di dj;
  v ← interpolate_along_transect (exp1_yvm sn) i j di dj;
  m ← nearest_along_transect (exp1_mask sn) i j di dj;
  Ok {| smp_x := x; smp_y := y; smp_s := hypot x y; smp_H := H;
        smp_m := Np.float_of_Z m; smp_u := u; smp_v := v |}.

(** *** Everything before the output file is opened (lines 26-139) *)

Definition prepare (ds ts : Dataset) : result sampled :=
  sn ← read_snapshot ds;
  let '(Mx, My) := Np.shape (exp1_mask sn) in
  tsr ← read_timeseries ts;
  trans ← get_troughs (transects (Z.of_nat Mx) (Z.of_nat My)) dp;
  '(exp1_xm, exp1_ym) ← build_mesh Mx My (exp1_x sn) (exp1_y sn);
  b ← sample_all sn exp1_xm exp1_ym trans;
  Ok {| s_snap := sn; s_ts := tsr; s_trans := trans; s_buf := b |}.

Definition run (ds ts : Dataset) : outcome :=
  match prepare ds ts with
  | Raise e => Crashed e
  | Ok st =>
      match write st with
      | Raise e => CrashedWriting e
      | Ok f => Saved f
      end
  end.

End Pipeline.

(** ** A model of [postprocess_helper]

    Modelled from the spec: the three functions of [postprocess_helper]
    the script calls.  The properties below are proved for every
    implementation of them; this one serves to run the script on test
    data. *)

Module Helper.

(** [var[i, j]] with numpy's index rules on both axes. *)
Definition at2 {A} (var : list (list A)) (i j : Z) : result A :=
  row ← Np.getitem var i; Np.getitem row j.

Definition one_minus (d : float) : float := PrimFloat.sub 1%float d.

(** Modelled from the spec: [interpolate_along_transect] of
    [postprocess_helper], the bilinear sampler: the weights
    [(1-di)(1-dj)], [di(1-dj)], [(1-di)dj], [di*dj] applied to the four
    cells surrounding [(i, j)], [di] running along the second index and
    [dj] along the first. *)
Definition interpolate_along_transect (var : array2) (i j : Z)
    (di dj : float) : result float :=
  v00 ← at2 var i j;
  v01 ← at2 var i (j + 1);
  v10 ← at2 var (i + 1) j;
  v11 ← at2 var (i + 1) (j + 1);
  Ok (PrimFloat.add
        (PrimFloat.add
           (PrimFloat.mul (PrimFloat.mul (one_minus di) (one_minus dj)) v00)
           (PrimFloat.mul (PrimFloat.mul di (one_minus dj)) v01))
        (PrimFloat.add
           (PrimFloat.mul (PrimFloat.mul (one_minus di) dj) v10)
           (PrimFloat.mul (PrimFloat.mul di dj) v11))).

Definition round_up (d : float) : Z :=
  if PrimFloat.ltb d 0.5%float then 0 else 1.

(** Modelled from the spec: [nearest_along_transect] of
    [postprocess_helper], the nearest-neighbour sampler: [(i+di, j+dj)]
    is rounded to the nearest cell, whose raw value is returned. *)
Definition nearest_along_transect (var : imask) (i j : Z)
    (di dj : float) : result Z :=
  at2 var (i + round_up di) (j + round_up dj).

Definition ceil (x : float) : result Z :=
  Np.int (PrimFloat.opp (Np.floor (PrimFloat.opp x))).

(** The length of a segment with the given extents. *)
Definition norm (dr dc : float) : float :=
  PrimFloat.sqrt (PrimFloat.add (PrimFloat.mul dr dr) (PrimFloat.mul dc dc)).

Definition lerp (a b : Z) (k n : nat) : float :=
  PrimFloat.add (Np.float_of_Z a)
    (PrimFloat.div
       (PrimFloat.mul (Np.float_of_Z (b - a)) (Np.float_of_Z (Z.of_nat k)))
       (Np.float_of_Z (Z.of_nat n))).

(** Modelled from the spec: the transect point generator behind
    [get_troughs], one transect: the segment from [start] to [end] is cut
    into the least number of equal steps not longer than [step]; both end
    points are part of the sequence. *)
Definition transect_points (step : float) (t : transect) : result (list point) :=
  let '(r0, c0) := t_start t in
  let '(r1, c1) := t_end t in
  let len := norm (Np.float_of_Z (r1 - r0)) (Np.float_of_Z (c1 - c0)) in
  n ← ceil (PrimFloat.div len step);
  let n := Z.to_nat n in
  Ok (match n with
      | O => [(Np.float_of_Z r0, Np.float_of_Z c0)]
      | _ => (λ k, (lerp r0 r1 k n, lerp c0 c1 k n)) <$> seq 0 (S n)
      end).

(** Modelled from the spec: [get_troughs] of [postprocess_helper], the
    point sequences of all transects, in order. *)
Fixpoint get_troughs (ts : list transect) (step : float)
    : result (list (list point)) :=
  match ts with
  | [] => Ok []
  | t :: ts' =>
      po ← transect_points step t;
      rest ← get_troughs ts' step;
      Ok (po :: rest)
  end.

End Helper.

(** A C library for the test runs: its [pow] is correctly rounded at the
    exponent 2, the only exponent the script uses (and returns NaN at
    every other exponent). *)
#[global] Instance rounded_square : Libm | 100 :=
  {| npy_pow x y :=
       if PrimFloat.eqb y 2%float then PrimFloat.mul x x else PrimFloat.nan |}.

(** The script with the helper model plugged in. *)
Definition run_model : Dataset → Dataset → outcome :=
  run Helper.get_troughs Helper.interpolate_along_transect
      Helper.nearest_along_transect.

(** ** Test data: square grids with a unit spacing *)

Module Fixture.

Definition axis_from (x0 : Z) (n : nat) : array1 :=
  (λ k, Np.float_of_Z (x0 + Z.of_nat k)) <$> seq 0 n.

(** The axis whose origin is the centre cell. *)
Definition axis (n : nat) : array1 := axis_from (- Mp (Z.of_nat n)) n.

Definition const2 {A} (n : nat) (v : A) : list (list A) :=
  replicate n (replicate n v).

(** A snapshot file of an [n] x [n] grid whose axes start at [x0], one
    time slice, under the given field names, mask category [m]
    everywhere. *)
Definition snapshot_file_at (x0 : Z) (names : string * string * string)
    (n : nat) (m : Z) : Dataset :=
  let '(un, vn, hn) := names in
  {| vars1 := <["x" := axis_from x0 n]> (<["y" := axis_from x0 n]>
                (<["time" := [PrimFloat.mul 110005%float secperyear]]> ∅));
     vars3 := <[un := [const2 n 2%float]]> (<[vn := [const2 n 0%float]]>
                (<[hn := [const2 n 100%float]]>
                (<["calvingmip_calving_rate" := [const2 n 0%float]]>
                (<["topg" := [const2 n (-500)%float]]> ∅))));
     varsm := <["mask" := {| iv_dtype := int8; iv_data := [const2 n m] |}]> ∅ |}.

(** The same with the origin at the centre cell. *)
Definition snapshot_file (names : string * string * string) (n : nat)
    (m : Z) : Dataset :=
  snapshot_file_at (- Mp (Z.of_nat n)) names n m.

Definition primary : string * string * string := ("xvelmean", "yvelmean", "lithk")%string.

Definition series : array1 := Np.float_of_Z <$> [1; 2; 3; 4; 5; 6; 7].

Definition ts_file : Dataset :=
  {| vars1 := <["time" := series]> (<["iareafl" := series]>
                (<["iareagr" := series]> (<["lim" := series]>
                (<["limnsw" := series]> (<["tendlicalvf" := series]>
                (<["tendligroundf" := series]> ∅))))));
     vars3 := ∅; varsm := ∅ |}.

(** A 3 x 3 snapshot as the script holds it after reading, its meshes,
    and one transect of 301 points. *)
Definition snap : snapshot :=
  {| exp1_x := axis 3; exp1_y := axis 3; exp1_t := [5%float];
     exp1_xvm := const2 3 2%float; exp1_yvm := const2 3 0%float;
     exp1_thk := const2 3 100%float; exp1_mask := const2 3 1;
     exp1_crate := []; exp1_topg := const2 3 (-500)%float |}.

Definition xm : array2 := (λ v, replicate 3 v) <$> axis 3.
Definition ym : array2 := replicate 3 (axis 3).

Definition origin_301 : list (list point) :=
  [replicate 301 (0%float, 0%float)].

End Fixture.

(** ** Vocabulary of the statements *)



(** The grid extents [Mx, My = np.shape(exp1_mask)] and the transects
    planned from them. *)
Definition grid (sn : snapshot) : nat * nat := Np.shape (exp1_mask sn).

Definition planned (sn : snapshot) : list transect :=
  transects (Z.of_nat (grid sn).1) (Z.of_nat (grid sn).2).

(** Distance, in cells, from index [r] to the nearest boundary index of an
    axis of [n] cells (the boundary indices are [0] and [n-1]). *)
Definition boundary_distance (n r : Z) : Z := Z.min r (n - 1 - r).

(** The reading of "two cells from the nearest boundary index": every end
    coordinate is the centre index or lies two cells inside the boundary. *)
Definition two_from_boundary (Mx My : Z) (t : transect) : Prop :=
  ((t_end t).1 = Mp Mx ∨ boundary_distance Mx (t_end t).1 = 2) ∧
  ((t_end t).2 = Mp Mx ∨ boundary_distance My (t_end t).2 = 2).

(** [a[ti]]: the sixth entry from the end, if there are six. *)
Definition sixth_last (a : array1) : option float :=
  if decide (6 ≤ length a)%nat then a !! (length a - 6)%nat else None.

(** The entry the script reads from a series of the time-series file. *)
Definition series (ds : Dataset) (name : string) : option float :=
  vars1 ds !! name ≫= sixth_last.

Definition ts_names : list string :=
  ["time"; "iareafl"; "iareagr"; "lim"; "limnsw";
   "tendlicalvf"; "tendligroundf"]%string.

(** The seven buffers of a sampling state. *)
Definition all_buffers (b : buffers) : list array2 :=
  [xav b; yav b; Hav b; mav b; uav b; vav b; sav b].





(** ** The configuration accessors ([src/pythonbindings/Config.py])

    [get], [set] and [set_from_dict] are methods added to the bound
    configuration class.  The typed accessors they try, and [_get] and
    [_set], belong to that class: the model is parametric in them.  A
    bound method may change the configuration and may raise; the
    configuration it leaves behind is kept in both cases. *)

Module Config.
Section Bindings.
Variables config key value : Type.

Definition method (A : Type) : Type := config → config * result A.

Variables get_flag get_number get_numbers get_string _get : key → method value.
Variables set_flag set_number set_numbers set_string _set :
  key → value → method unit.

(** [for method in methods: try: return method(...) except: pass]
    followed by [return last(...)]. *)
Fixpoint first_success {A} (methods : list (method A)) (last : method A)
    : method A :=
  λ c,
    match methods with
    | [] => last c
    | m :: methods' =>
        match m c with
        | (c', Ok a) => (c', Ok a)
        | (c', Raise _) => first_success methods' last c'
        end
    end.

Definition get (k : key) : method value :=
  first_success [get_flag k; get_number k; get_numbers k; get_string k]
    (_get k).

Definition set (k : key) (val : value) : method unit :=
  first_success
    [set_flag k val; set_number k val; set_numbers k val; set_string k val]
    (_set k val).

(** [for key, val in d.items(): self.set(key, val)]; the dictionary is
    the list of its items in iteration order. *)
Fixpoint set_from_dict (d : list (key * value)) : method unit :=
  λ c,
    match d with
    | [] => (c, Ok tt)
    | (k, val) :: d' =>
        match set k val c with
        | (c', Ok _) => set_from_dict d' c'
        | (c', Raise e) => (c', Raise e)
        end
    end.

End Bindings.

(** A small configuration class to run the accessors on: flags and
    numbers in one table, each typed accessor rejecting the other kind;
    [_get] and [_set] reject everything. *)
Inductive entry := Flag (b : bool) | Number (z : Z) | Text (s : string).

Definition table : Type := gmap string entry.

Definition lookup_flag (k : string) : method table entry :=
  λ c, (c, match c !! k with
           | Some (Flag b) => Ok (Flag b)
           | _ => Raise (KeyError k)
           end).

Definition lookup_number (k : string) : method table entry :=
  λ c, (c, match c !! k with
           | Some (Number z) => Ok (Number z)
           | _ => Raise (KeyError k)
           end).

Definition reject {A B} (k : string) (_ : A) : method table B :=
  λ c, (c, Raise (KeyError k)).

Definition store_flag (k : string) (v : entry) : method table unit :=
  λ c, match v with
       | Flag _ => (<[k := v]> c, Ok tt)
       | _ => (c, Raise ValueError)
       end.

Definition store_number (k : string) (v : entry) : method table unit :=
  λ c, match v with
       | Number _ => (<[k := v]> c, Ok tt)
       | _ => (c, Raise ValueError)
       end.

Definition table_get (k : string) : method table entry :=
  get table string entry lookup_flag lookup_number
    (λ k, reject k tt) (λ k, reject k tt) (λ k, reject k tt) k.

Definition table_set_from_dict (d : list (string * entry)) : method table unit :=
  set_from_dict table string entry store_flag store_number
    (λ k _, reject k tt) (λ k _, reject k tt) (λ k _, reject k tt) d.

End Config.

(** More test data: a time-series file with five entries per series, a
    snapshot file whose x axis is one entry short, and point generators
    that return seven and nine transects. *)
Module Fixture2.

Definition short_series : array1 := Np.float_of_Z <$> [1; 2; 3; 4; 5].

Definition short_ts_file : Dataset :=
  {| vars1 := <["iareafl" := short_series]> (vars1 Fixture.ts_file);
     vars3 := ∅; varsm := ∅ |}.

Definition short_axis_file : Dataset :=
  let ds := Fixture.snapshot_file Fixture.primary 5 2 in
  {| vars1 := <["x" := Fixture.axis 4]> (vars1 ds);
     vars3 := vars3 ds; varsm := varsm ds |}.

Definition no_x_file : Dataset :=
  let ds := Fixture.snapshot_file Fixture.primary 5 2 in
  {| vars1 := delete "x" (vars1 ds); vars3 := vars3 ds; varsm := varsm ds |}.

Definition no_time_file : Dataset :=
  let ds := Fixture.snapshot_file Fixture.primary 5 2 in
  {| vars1 := <["time" := []]> (vars1 ds);
     vars3 := vars3 ds; varsm := varsm ds |}.





(** An interpolator that fails on the thickness field only. *)
Definition no_thickness (var : array2) (i j : Z) (di dj : float)
    : result float :=
  match var with
  | (v :: _) :: _ =>
      if PrimFloat.eqb v 100%float then Raise (HelperError "thickness")
      else Helper.interpolate_along_transect var i j di dj
  | _ => Helper.interpolate_along_transect var i j di dj
  end.

End Fixture2.

(** * Properties *)

(** ** Floating point primitives on sample values *)

Example floor_examples :
  Np.floor 2.75%float = 2%float ∧ Np.floor (-0.5)%float = (-1)%float ∧
  Np.floor 3%float = 3%float ∧
  PrimFloat.sub 2.75%float (Np.floor 2.75%float) = 0.75%float.
Proof. repeat split; reflexivity. Qed.

Example int_examples :
  Np.int 2.75%float = Ok 2 ∧ Np.int (-2.75)%float = Ok (-2) ∧
  Np.int PrimFloat.nan = Raise ValueError ∧
  Np.int PrimFloat.infinity = Raise OverflowError.
Proof. repeat split; reflexivity. Qed.

Example Mp_as_written_examples :
  Forall (λ Mx, Mp_as_written Mx = Ok (Mp Mx))
         [0; 1; 2; 3; 4; 5; 7; 8; 301; 302; 1000001; 2 ^ 40].
Proof. repeat (apply Forall_cons; split; [reflexivity|]). apply Forall_nil_2. Qed.

(** ** The planner *)

Lemma Mp_odd (Mx : Z) : Z.odd Mx = true → 2 * Mp Mx + 1 = Mx.
Proof.
  intros Hodd. unfold Mp.
  destruct (Z.Even_or_Odd Mx) as [[k ->]|[k ->]].
  - rewrite Z.odd_mul in Hodd. discriminate.
  - replace (2 * k + 1 - 1) with (k * 2) by lia.
    rewrite Z.quot_mul by lia. lia.
Qed.

Lemma Mp_even (Mx : Z) : Z.even Mx = true → 0 < Mx → 2 * Mp Mx + 2 = Mx.
Proof.
  intros Hev Hpos. unfold Mp.
  destruct (Z.Even_or_Odd Mx) as [[k ->]|[k ->]].
  - assert (Hq := Z.quot_rem' (2 * k - 1) 2).
    assert (Hr := Z.rem_bound_pos (2 * k - 1) 2). lia.
  - rewrite Z.even_add, Z.even_mul in Hev. discriminate.
Qed.

(** C4: on a grid with an exact centre cell (odd Mx and My) the eight
    transects A..H all start at the same index pair (Mp, Mp), where
    Mp = (Mx-1)/2 exactly. *)
Theorem transects_share_start (Mx My : Z) :
  Z.odd Mx = true → Z.odd My = true →
  length (transects Mx My) = 8%nat ∧
  Forall (λ t, t_start t = (Mp Mx, Mp Mx)) (transects Mx My) ∧
  Mp Mx = (Mx - 1) / 2 ∧ 2 * Mp Mx + 1 = Mx.
Proof.
  intros HMx _. split; [reflexivity|]. split.
  - unfold transects. repeat constructor.
  - pose proof (Mp_odd Mx HMx) as H. split; [|exact H].
    apply Z.div_unique with (r := 0); lia.
Qed.

Lemma transects_share_start_witness :
  Forall (λ t, t_start t = (150, 150)) (transects 301 301).
Proof.
  exact (proj1 (proj2 (transects_share_start 301 301 eq_refl eq_refl))).
Defined.

(** C8, as stated, fails: on a 7 x 7 grid transect C ends at row 5, which
    is not the centre row 3 and is one cell, not two, from the last
    row 6. *)
Lemma transect_end_one_from_boundary :
  points_C 7 ∈ transects 7 7 ∧
  t_end (points_C 7) = (5, 3) ∧ Mp 7 = 3 ∧
  boundary_distance 7 5 = 1 ∧
  ¬ Forall (two_from_boundary 7 7) (transects 7 7).
Proof.
  split.
  { unfold transects. do 2 apply list_elem_of_further. apply list_elem_of_here. }
  do 3 (split; [reflexivity|]).
  intros H. unfold transects in H.
  do 2 apply Forall_cons in H as [_ H].
  apply Forall_cons in H as [[[Hc|Hc] _] _]; vm_compute in Hc; discriminate.
Qed.

(** C8, amended: every transect ends at an edge midpoint (one coordinate
    is Mp, the other is 2 or the extent minus 2) or near a corner (both
    coordinates are 2 or the extent minus 2).  Index 2 lies two cells from
    boundary index 0; the extent minus 2 lies ONE cell from the last index. *)
Theorem transect_ends (Mx My : Z) :
  5 ≤ Mx → 5 ≤ My →
  t_end <$> transects Mx My =
    [(Mp Mx, My - 2); (Mx - 2, My - 2); (Mx - 2, Mp Mx); (Mx - 2, 2);
     (Mp Mx, 2); (2, 2); (2, Mp Mx); (2, My - 2)] ∧
  Forall (λ t, let '(r, c) := t_end t in
               (r = Mp Mx ∧ (c = 2 ∨ c = My - 2)) ∨
               ((r = 2 ∨ r = Mx - 2) ∧ c = Mp Mx) ∨
               ((r = 2 ∨ r = Mx - 2) ∧ (c = 2 ∨ c = My - 2)))
         (transects Mx My) ∧
  boundary_distance Mx 2 = 2 ∧ boundary_distance My 2 = 2 ∧
  boundary_distance Mx (Mx - 2) = 1 ∧ boundary_distance My (My - 2) = 1.
Proof.
  intros HMx HMy. split; [reflexivity|]. split.
  - unfold transects, points_A, points_B, points_C, points_D, points_E,
      points_F, points_G, points_H.
    generalize (Mp Mx); intros c.
    repeat (apply Forall_cons; split; [simpl; lia|]). apply Forall_nil_2.
  - unfold boundary_distance. lia.
Qed.

Lemma transect_ends_witness :
  t_end <$> transects 7 7 =
    [(3, 5); (5, 5); (5, 3); (5, 2); (3, 2); (2, 2); (2, 3); (2, 5)] ∧
  boundary_distance 7 2 = 2 ∧ boundary_distance 7 5 = 1.
Proof.
  destruct (transect_ends 7 7 ltac:(lia) ltac:(lia)) as (H1 & _ & H2 & _ & H3 & _).
  split; [exact H1|]. split; [exact H2|exact H3].
Defined.

(** ** The error monad and numpy subscripts *)

Lemma bind_Ok_inv {A B} (k : A → result B) (m : result A) (b : B) :
  m ≫= k = Ok b → ∃ a, m = Ok a ∧ k a = Ok b.
Proof. destruct m as [a|e]; [eauto|discriminate]. Qed.

(** Splits a hypothesis [x ← m; k = Ok b] into [m = Ok x] and [k x = Ok b],
    as long as the head of the hypothesis is a bind. *)
Ltac bind_inv H :=
  repeat
    (let a := fresh "a" in
     let Ha := fresh "Ha" in
     apply bind_Ok_inv in H as (a & Ha & H)).

Lemma getitem_nat {A} (a : list A) (i : nat) :
  Np.getitem a (Z.of_nat i) =
  match a !! i with Some v => Ok v | None => Raise IndexError end.
Proof.
  unfold Np.getitem.
  destruct (Z.ltb_spec (Z.of_nat i) 0) as [?|_]; [lia|].
  destruct (Z.leb_spec 0 (Z.of_nat i)) as [_|?]; [|lia].
  rewrite Nat2Z.id. simpl.
  destruct (Z.ltb_spec (Z.of_nat i) (Z.of_nat (length a))) as [Hlt|Hge];
    [reflexivity|].
  rewrite lookup_ge_None_2 by lia. reflexivity.
Qed.

Lemma getitem_past_end {A} (a : list A) (i : nat) :
  (length a ≤ i)%nat → Np.getitem a (Z.of_nat i) = Raise IndexError.
Proof. intros H. rewrite getitem_nat, lookup_ge_None_2 by exact H. reflexivity. Qed.

Lemma getitem_last {A} (a : list A) :
  Np.getitem a tex =
  match last a with Some v => Ok v | None => Raise IndexError end.
Proof.
  unfold Np.getitem, tex. rewrite last_lookup.
  destruct a as [|v a]; [reflexivity|].
  remember (v :: a) as l eqn:Hl.
  assert (0 < length l)%nat as Hlen by (subst l; simpl; lia).
  change (-1 <? 0) with true. cbv beta iota zeta.
  rewrite (proj2 (Z.leb_le _ _)) by lia.
  rewrite (proj2 (Z.ltb_lt _ _)) by lia.
  replace (Z.to_nat (-1 + Z.of_nat (length l)))
    with (Nat.pred (length l)) by lia.
  reflexivity.
Qed.

(** Replaces the variable [x] of a hypothesis [c = Ok x] by the value [c]
    evaluates to. *)
Ltac evaluate H :=
  let H' := fresh "H" in
  pose proof H as H'; vm_compute in H'; injection H'; clear H'; intros;
  subst.

(** ** Reading the snapshot *)









Section FieldNames.
Context {libm : Libm}.
Variable get_troughs : list transect → float → result (list (list point)).
Variable interpolate_along_transect :
  array2 → Z → Z → float → float → result float.
Variable nearest_along_transect : imask → Z → Z → float → float → result Z.

Lemma run_Crashed (ds ts : Dataset) (e : exn) :
  read_snapshot ds = Raise e →
  run get_troughs interpolate_along_transect nearest_along_transect ds ts
  = Crashed e.
Proof. intros H. unfold run, prepare. rewrite H. reflexivity. Qed.


End FieldNames.


(** ** The mask *)

Lemma wrap_in_range (dt : dtype) (z : Z) :
  dtype_min dt ≤ z ≤ dtype_max dt → wrap dt z = z.
Proof.
  destruct dt; unfold wrap, dtype_min, dtype_max; simpl; intros H;
    rewrite Z.mod_small by lia; lia.
Qed.

Lemma remap_mask_lookup (dt : dtype) (m : imask) (r c : nat) :
  remap_mask dt m !! r ≫= (.!! c)
  = (λ v, wrap dt (v - 1)) <$> (m !! r ≫= (.!! c)).
Proof.
  unfold remap_mask. rewrite list_lookup_fmap.
  destruct (m !! r) as [row|]; simpl; [|reflexivity].
  apply list_lookup_fmap.
Qed.

Lemma remap_mask_Forall (P Q : Z → Prop) (dt : dtype) (m : imask) :
  (∀ v, P v → Q (wrap dt (v - 1))) →
  Forall (Forall P) m → Forall (Forall Q) (remap_mask dt m).
Proof.
  intros HPQ Hm. unfold remap_mask. apply Forall_fmap.
  eapply Forall_impl; [exact Hm|]. intros row Hrow. simpl.
  apply Forall_fmap. eapply Forall_impl; [exact Hrow|]. exact HPQ.
Qed.

Lemma remap_mask_exact (dt : dtype) (m : imask) :
  Forall (Forall (λ v, dtype_min dt ≤ v - 1 ≤ dtype_max dt)) m →
  remap_mask dt m = fmap (M := list) (λ v, v - 1) <$> m.
Proof.
  intros Hm. unfold remap_mask. apply Forall_fmap_ext.
  eapply Forall_impl; [exact Hm|]. intros row Hrow. simpl.
  apply Forall_fmap_ext. eapply Forall_impl; [exact Hrow|].
  intros v Hv. simpl. by apply wrap_in_range.
Qed.

Lemma small_codes_in_range (dt : dtype) (x : Z) :
  x ∈ [1; 2; 3] → dtype_min dt ≤ x - 1 ≤ dtype_max dt.
Proof.
  rewrite !elem_of_cons.
  intros [->|[->|[->|H]]]; [..|by apply elem_of_nil in H];
    destruct dt; unfold dtype_min, dtype_max; simpl; lia.
Qed.

Lemma read_mask_Ok (ds : Dataset) (v : ivar) (m : imask) :
  varsm ds !! "mask" = Some v → last (iv_data v) = Some m →
  read_mask ds = Ok (remap_mask (iv_dtype v) m).
Proof.
  intros Hv Hm. unfold read_mask, variables. rewrite Hv. simpl.
  rewrite getitem_last, Hm. reflexivity.
Qed.

(** The subtraction wraps around at the lower bound of the element
    type. *)
Example remap_mask_wraps :
  remap_mask int8 [[-128; 1]] = [[127; 0]] ∧
  remap_mask uint8 [[0; 1]] = [[255; 0]].
Proof. split; reflexivity. Qed.

(** The flag attributes the script attaches to the written mask variables
    (lines 448-473) name the codes 1, 2 and 3. *)
Example declared_mask_flags :
  flag_values = render_values mask_categories ∧
  flag_meanings = render_meanings mask_categories ∧
  category 0 = None ∧
  category 1 = Some "grounded ice"%string ∧
  category 2 = Some "floating ice"%string ∧
  category 3 = Some "open ocean"%string.
Proof. repeat split; reflexivity. Qed.

(** C6: the mask is read as an integer array and 1 is subtracted from
    every stored value, in the element type of the stored array; where
    the difference is representable in that type it is the exact
    difference.  Whenever the stored values lie in {1, 2, 3}, in every
    integer element type, every cell of the remapped mask is the stored
    value less 1 and lies in {0, 1, 2}: a stored 1 gives 0, a stored 2
    gives 1 and a stored 3 gives 2. *)
Theorem remap_mask_categories (ds : Dataset) (v : ivar) (m : imask) :
  varsm ds !! "mask" = Some v → last (iv_data v) = Some m →
  read_mask ds = Ok (remap_mask (iv_dtype v) m) ∧
  (∀ r c, remap_mask (iv_dtype v) m !! r ≫= (.!! c)
          = (λ x, wrap (iv_dtype v) (x - 1)) <$> (m !! r ≫= (.!! c))) ∧
  (∀ x, dtype_min (iv_dtype v) ≤ x - 1 ≤ dtype_max (iv_dtype v) →
        wrap (iv_dtype v) (x - 1) = x - 1) ∧
  (Forall (Forall (λ x, x ∈ [1; 2; 3])) m →
   remap_mask (iv_dtype v) m = fmap (M := list) (λ x, x - 1) <$> m ∧
   Forall (Forall (λ x, x ∈ [0; 1; 2])) (remap_mask (iv_dtype v) m) ∧
   ∀ r c x, m !! r ≫= (.!! c) = Some x →
     remap_mask (iv_dtype v) m !! r ≫= (.!! c) = Some (x - 1) ∧
     (x = 1 ∧ x - 1 = 0 ∨ x = 2 ∧ x - 1 = 1 ∨ x = 3 ∧ x - 1 = 2)).
Proof.
  intros Hv Hm. split; [by apply (read_mask_Ok ds v)|].
  split; [apply remap_mask_lookup|].
  split; [intros x; apply wrap_in_range|].
  intros Hstored.
  assert (Hexact : remap_mask (iv_dtype v) m
                   = fmap (M := list) (λ x, x - 1) <$> m).
  { apply remap_mask_exact. eapply Forall_impl; [exact Hstored|].
    intros row Hrow. eapply Forall_impl; [exact Hrow|].
    intros x. apply small_codes_in_range. }
  split; [exact Hexact|]. split.
  - apply (remap_mask_Forall (λ x, x ∈ [1; 2; 3])); [|exact Hstored].
    intros x Hx.
    rewrite (wrap_in_range _ _ (small_codes_in_range _ x Hx)).
    revert Hx. rewrite !elem_of_cons.
    intros [->|[->|[->|H]]]; [tauto..|by apply elem_of_nil in H].
  - intros r c x Hx. rewrite remap_mask_lookup, Hx. simpl.
    assert (Hin : x ∈ [1; 2; 3]).
    { destruct (m !! r) as [row|] eqn:Hr; [|discriminate]. simpl in Hx.
      rewrite Forall_lookup in Hstored. specialize (Hstored r row Hr).
      rewrite Forall_lookup in Hstored. exact (Hstored c x Hx). }
    rewrite (wrap_in_range _ _ (small_codes_in_range _ x Hin)).
    split; [reflexivity|].
    revert Hin. rewrite !elem_of_cons.
    intros [->|[->|[->|H]]]; [lia..|by apply elem_of_nil in H].
Qed.

Lemma remap_mask_categories_witness :
  read_mask (Fixture.snapshot_file Fixture.primary 3 3)
  = Ok (Fixture.const2 3 2) ∧
  Forall (Forall (λ x, x ∈ [0; 1; 2])) (Fixture.const2 3 2).
Proof.
  destruct (remap_mask_categories (Fixture.snapshot_file Fixture.primary 3 3)
              {| iv_dtype := int8; iv_data := [Fixture.const2 3 3] |}
              (Fixture.const2 3 3) eq_refl eq_refl)
    as (H1 & _ & _ & H2).
  split; [exact H1|]. apply H2.
  repeat (apply Forall_cons; split); try apply Forall_nil_2;
    rewrite !elem_of_cons; tauto.
Defined.

(** ** The coordinate meshes *)

Lemma for_enumerate_seq {St} (body : St → nat → result St)
    (P : nat → St → Prop) (n a k0 : nat) (s0 : St) :
  P a s0 →
  (∀ i s, (a ≤ i < a + n)%nat → P i s → ∃ s', body s i = Ok s' ∧ P (S i) s') →
  ∃ s', for_enumerate (λ s _ i, body s i) k0 s0 (seq a n) = Ok s' ∧
        P (a + n)%nat s'.
Proof.
  revert a k0 s0. induction n as [|n IH]; intros a k0 s0 H0 Hstep.
  - exists s0. rewrite Nat.add_0_r. split; [reflexivity|exact H0].
  - destruct (Hstep a s0 ltac:(lia) H0) as (s1 & Hb & H1).
    destruct (IH (S a) (S k0) s1 H1) as (s' & Hloop & Hs').
    { intros i s Hi. apply Hstep. lia. }
    exists s'. simpl. rewrite Hb. simpl.
    split; [exact Hloop|]. replace (a + S n)%nat with (S a + n)%nat by lia.
    exact Hs'.
Qed.

Lemma for_range_inv {St} (body : St → nat → result St)
    (P : nat → St → Prop) (n : nat) (s0 : St) :
  P 0%nat s0 →
  (∀ i s, (i < n)%nat → P i s → ∃ s', body s i = Ok s' ∧ P (S i) s') →
  ∃ s', for_range body n s0 = Ok s' ∧ P n s'.
Proof.
  intros H0 Hstep. unfold for_range.
  apply (for_enumerate_seq body P n 0 0 s0 H0).
  intros i s Hi. apply Hstep. lia.
Qed.

(** Overwriting slot [i] of a list whose first [i] slots already hold the
    prefix of [l] and whose other slots hold [z]. *)
Lemma insert_take_fill {A} (l : list A) (z v : A) (i n : nat) :
  l !! i = Some v → (i < n)%nat →
  <[i := v]> (take i l ++ replicate (n - i) z)
  = take (S i) l ++ replicate (n - S i) z.
Proof.
  intros Hl Hi. pose proof (lookup_lt_Some _ _ _ Hl) as Hlt.
  rewrite insert_app_r_alt by (rewrite length_take; lia).
  rewrite length_take, Nat.min_l, Nat.sub_diag by lia.
  replace (n - i)%nat with (S (n - S i)) by lia. simpl.
  rewrite (take_S_r l i v Hl), <- app_assoc. reflexivity.
Qed.

Lemma build_mesh_exact (x y : array1) :
  build_mesh (length x) (length y) x y
  = Ok ((λ v, replicate (length y) v) <$> x, replicate (length x) y).
Proof.
  unfold build_mesh.
  set (Mx := length x). set (My := length y).
  destruct (for_range_inv
    (λ m i, v ← Np.getitem x (Z.of_nat i); Ok (<[i := replicate My v]> m))
    (λ i m, m = take i ((λ v, replicate My v) <$> x)
                ++ replicate (Mx - i) (replicate My PrimFloat.zero))
    Mx (Np.zeros Mx My)) as (xm & -> & Hxm).
  { rewrite Nat.sub_0_r. reflexivity. }
  { intros i m Hi ->.
    destruct (lookup_lt_is_Some_2 x i Hi) as [v Hv].
    rewrite getitem_nat, Hv. simpl. eexists. split; [reflexivity|].
    apply insert_take_fill; [|exact Hi].
    rewrite list_lookup_fmap, Hv. reflexivity. }
  destruct (for_range_inv
    (λ m j, v ← Np.getitem y (Z.of_nat j); Ok ((λ row, <[j := v]> row) <$> m))
    (λ j m, m = replicate Mx (take j y ++ replicate (My - j) PrimFloat.zero))
    My (Np.zeros Mx My)) as (ym & -> & Hym).
  { rewrite Nat.sub_0_r. reflexivity. }
  { intros j m Hj ->.
    destruct (lookup_lt_is_Some_2 y j Hj) as [v Hv].
    rewrite getitem_nat, Hv. simpl. eexists. split; [reflexivity|].
    rewrite fmap_replicate. f_equal. by apply insert_take_fill. }
  simpl. subst xm ym.
  rewrite !Nat.sub_diag.
  rewrite !take_ge by (rewrite ?length_fmap; unfold Mx, My; lia).
  simpl. rewrite !app_nil_r. reflexivity.
Qed.

(** C7: for axis arrays X of length Mx and Y of length My the mesh builder
    returns two arrays of shape (Mx, My) with Xmesh[i, j] = X[i] and
    Ymesh[i, j] = Y[j]; it is a function of the two axes and returns the
    two meshes only.  (Empty axes are covered as well.) *)
Theorem coordinate_mesh (x y : array1) :
  ∃ xm ym,
    build_mesh (length x) (length y) x y = Ok (xm, ym) ∧
    length xm = length x ∧ Forall (λ row, length row = length y) xm ∧
    length ym = length x ∧ Forall (λ row, length row = length y) ym ∧
    ∀ i j xi yj, x !! i = Some xi → y !! j = Some yj →
      xm !! i ≫= (.!! j) = Some xi ∧ ym !! i ≫= (.!! j) = Some yj.
Proof.
  eexists _, _. split; [apply build_mesh_exact|].
  split; [apply length_fmap|].
  split; [apply Forall_fmap, Forall_true; intros v; apply length_replicate|].
  split; [apply length_replicate|].
  split; [apply Forall_replicate; reflexivity|].
  intros i j xi yj Hx Hy.
  pose proof (lookup_lt_Some _ _ _ Hx) as Hi.
  pose proof (lookup_lt_Some _ _ _ Hy) as Hj.
  rewrite list_lookup_fmap, Hx, lookup_replicate_2 by exact Hi. simpl.
  rewrite lookup_replicate_2 by exact Hj. split; [reflexivity|exact Hy].
Qed.

Lemma coordinate_mesh_witness :
  ∃ xm ym,
    build_mesh 3 2 [1; 2; 3]%float [10; 20]%float = Ok (xm, ym) ∧
    xm !! 2%nat ≫= (.!! 1%nat) = Some 3%float ∧
    ym !! 2%nat ≫= (.!! 1%nat) = Some 20%float.
Proof.
  destruct (coordinate_mesh [1; 2; 3]%float [10; 20]%float)
    as (xm & ym & Hb & _ & _ & _ & _ & Hcell).
  exists xm, ym. split; [exact Hb|].
  exact (Hcell 2%nat 1%nat 3%float 20%float eq_refl eq_refl).
Defined.

Lemma for_enumerate_cons {A St} (body : St → nat → A → result St)
    (k0 : nat) (s : St) (a : A) (l : list A) :
  for_enumerate body k0 s (a :: l) =
  s' ← body s k0 a; for_enumerate body (S k0) s' l.
Proof. reflexivity. Qed.

(** ** Sequencing a list of fallible computations *)

Lemma mapM_cons {A B} (f : A → result B) (x : A) (l : list A) :
  mapM f (x :: l) = y ← f x; k ← mapM f l; Ok (y :: k).
Proof. reflexivity. Qed.

Lemma mapM_Ok {A B} (f : A → result B) (l : list A) (k : list B) :
  mapM f l = Ok k ↔ Forall2 (λ x y, f x = Ok y) l k.
Proof.
  split.
  - revert k. induction l as [|x l IH]; intros k H.
    + injection H as <-. constructor.
    + rewrite mapM_cons in H. bind_inv H. injection H as <-.
      constructor; [assumption|]. by apply IH.
  - induction 1 as [|x y l k Hx _ IH]; [reflexivity|].
    rewrite mapM_cons, Hx, IH. reflexivity.
Qed.

Lemma mapM_length {A B} (f : A → result B) (l : list A) (k : list B) :
  mapM f l = Ok k → length k = length l.
Proof. intros H. symmetry. eapply Forall2_length. apply mapM_Ok, H. Qed.

(** ** The sample buffers *)

Lemma setitem2_Ok (a : array2) (l k : nat) (v : float) (row : array1) :
  a !! l = Some row → (k < length row)%nat →
  Np.setitem2 a l k v = Ok (<[l := <[k := v]> row]> a).
Proof.
  intros Hl Hk. unfold Np.setitem2. rewrite Hl.
  destruct (decide (k < length row)%nat); [reflexivity|contradiction].
Qed.

Lemma setitem2_overflow (a : array2) (l k : nat) (v : float) (row : array1) :
  a !! l = Some row → ¬ (k < length row)%nat →
  Np.setitem2 a l k v = Raise IndexError.
Proof.
  intros Hl Hk. unfold Np.setitem2. rewrite Hl.
  destruct (decide (k < length row)%nat); [contradiction|reflexivity].
Qed.

Lemma getitem2_insert (a : array2) (l k : nat) (v : float) (row : array1) :
  a !! l = Some row → (k < length row)%nat →
  Np.getitem2 (<[l := <[k := v]> row]> a) l k = Ok v.
Proof.
  intros Hl Hk. unfold Np.getitem2.
  rewrite list_lookup_insert_eq by (eapply lookup_lt_Some; exact Hl).
  rewrite list_lookup_insert_eq by exact Hk. reflexivity.
Qed.

Lemma allocate_pack (n : nat) :
  allocate n = pack (replicate n (replicate capacity sample0)).
Proof. unfold allocate, pack, Np.zeros. rewrite !fmap_replicate. reflexivity. Qed.

Lemma inserts_padded (ss : list sample) :
  (length ss ≤ capacity)%nat →
  list_inserts 0 ss (replicate capacity sample0) = padded ss.
Proof.
  intros Hlen. unfold padded.
  replace capacity with (length ss + (capacity - length ss))%nat at 1 by lia.
  rewrite replicate_add. apply list_inserts_0_r.
  rewrite length_replicate. reflexivity.
Qed.

Lemma padded_take (ss : list sample) : take (length ss) (padded ss) = ss.
Proof. unfold padded. by rewrite take_app_length. Qed.

Section Sampling.
Context {libm : Libm}.
Variable interpolate_along_transect :
  array2 → Z → Z → float → float → result float.
Variable nearest_along_transect : imask → Z → Z → float → float → result Z.
Variable sn : snapshot.
Variables exp1_xm exp1_ym : array2.

Abbreviation sample_at :=
  (point_sample interpolate_along_transect nearest_along_transect
     sn exp1_xm exp1_ym).
Abbreviation step_at :=
  (sample_point interpolate_along_transect nearest_along_transect
     sn exp1_xm exp1_ym).

(** Destructs the helper call on array [a], on both sides of the goal. *)
Local Ltac call_on a :=
  match goal with
  | |- context [interpolate_along_transect a ?i ?j ?di ?dj] =>
      destruct (interpolate_along_transect a i j di dj); simpl
  | |- context [nearest_along_transect a ?i ?j ?di ?dj] =>
      destruct (nearest_along_transect a i j di dj); simpl
  end.

(** Within the row, one loop step stores the sample of its point in slot
    [(l, k)] of the seven buffers. *)
Lemma sample_point_in_bounds (cells : list (list sample)) (row : list sample)
    (l k : nat) (p : point) :
  cells !! l = Some row → (k < length row)%nat →
  step_at l (pack cells) k p =
  s ← sample_at p; Ok (pack (<[l := <[k := s]> row]> cells)).
Proof.
  intros Hl Hk. unfold sample_point, point_sample.
  destruct (decompose p) as [[i j di dj]|e]; simpl; [|reflexivity].
  assert (∀ f : sample → float,
            (fmap (M := list) f <$> cells) !! l = Some (f <$> row)) as Hrow
    by (intros f; rewrite list_lookup_fmap, Hl; reflexivity).
  assert (∀ f : sample → float, (k < length (f <$> row))%nat) as Hlen
    by (intros f; rewrite length_fmap; exact Hk).
  unfold pack. simpl.
  call_on exp1_ym; [|reflexivity].
  rewrite (setitem2_Ok _ l k _ _ (Hrow smp_x) (Hlen smp_x)). simpl.
  call_on exp1_xm; [|reflexivity].
  rewrite (setitem2_Ok _ l k _ _ (Hrow smp_y) (Hlen smp_y)). simpl.
  rewrite (getitem2_insert _ l k _ _ (Hrow smp_x) (Hlen smp_x)). simpl.
  rewrite (getitem2_insert _ l k _ _ (Hrow smp_y) (Hlen smp_y)). simpl.
  rewrite (setitem2_Ok _ l k _ _ (Hrow smp_s) (Hlen smp_s)). simpl.
  call_on (exp1_thk sn); [|reflexivity].
  rewrite (setitem2_Ok _ l k _ _ (Hrow smp_H) (Hlen smp_H)). simpl.
  call_on (exp1_xvm sn); [|reflexivity].
  rewrite (setitem2_Ok _ l k _ _ (Hrow smp_u) (Hlen smp_u)). simpl.
  call_on (exp1_yvm sn); [|reflexivity].
  rewrite (setitem2_Ok _ l k _ _ (Hrow smp_v) (Hlen smp_v)). simpl.
  call_on (exp1_mask sn); [|reflexivity].
  rewrite (setitem2_Ok _ l k _ _ (Hrow smp_m) (Hlen smp_m)). simpl.
  rewrite !list_fmap_insert. reflexivity.
Qed.

(** Past the end of the row the step raises; it is the store into [xav]
    that fails once the point itself can be decomposed and sampled. *)
Lemma sample_point_overflow (cells : list (list sample)) (row : list sample)
    (l k : nat) (p : point) :
  cells !! l = Some row → ¬ (k < length row)%nat →
  ∃ e, step_at l (pack cells) k p = Raise e ∧
       ∀ s, sample_at p = Ok s → e = IndexError.
Proof.
  intros Hl Hk. unfold sample_point, point_sample.
  destruct (decompose p) as [[i j di dj]|e]; simpl;
    [|exists e; split; [reflexivity|discriminate]].
  assert ((xav (pack cells)) !! l = Some (smp_x <$> row)) as Hrow
    by (unfold pack; simpl; rewrite list_lookup_fmap, Hl; reflexivity).
  assert (¬ (k < length (smp_x <$> row))%nat) as Hlen
    by (rewrite length_fmap; exact Hk).
  call_on exp1_ym; [|eexists; split; [reflexivity|discriminate]].
  rewrite (setitem2_overflow _ l k _ _ Hrow Hlen). simpl.
  exists IndexError. split; reflexivity.
Qed.

(** The inner loop, started at slot [k0] of row [l], as long as the
    points fit into the row. *)
Lemma inner_loop_in_bounds (po : list point) :
  ∀ (cells : list (list sample)) (row : list sample) (l k0 : nat),
  cells !! l = Some row → (k0 + length po ≤ length row)%nat →
  for_enumerate (step_at l) k0 (pack cells) po =
  ss ← mapM sample_at po; Ok (pack (<[l := list_inserts k0 ss row]> cells)).
Proof.
  induction po as [|p po IH]; intros cells row l k0 Hl Hfit.
  - simpl. rewrite list_insert_id by exact Hl. reflexivity.
  - simpl in Hfit. simpl for_enumerate. rewrite mapM_cons.
    rewrite (sample_point_in_bounds cells row l k0 p Hl) by lia.
    destruct (sample_at p) as [s|e]; simpl; [|reflexivity].
    rewrite (IH _ (<[k0 := s]> row) l (S k0)).
    + destruct (mapM sample_at po) as [ss|e]; simpl; [|reflexivity].
      rewrite list_insert_insert_eq.
      rewrite <- list_insert_inserts_lt by lia. reflexivity.
    + apply list_lookup_insert_eq. eapply lookup_lt_Some, Hl.
    + rewrite length_insert. lia.
Qed.

(** The inner loop with more points than the row has slots left. *)
Lemma inner_loop_overflow (po : list point) :
  ∀ (cells : list (list sample)) (row : list sample) (l k0 : nat),
  cells !! l = Some row →
  (k0 ≤ length row < k0 + length po)%nat →
  ∃ e, for_enumerate (step_at l) k0 (pack cells) po = Raise e ∧
       ∀ ss, mapM sample_at po = Ok ss → e = IndexError.
Proof.
  induction po as [|p po IH]; intros cells row l k0 Hl Hover.
  - simpl in Hover. lia.
  - simpl in Hover. simpl for_enumerate. rewrite mapM_cons.
    destruct (decide (k0 < length row)%nat) as [Hk|Hk].
    + rewrite (sample_point_in_bounds cells row l k0 p Hl Hk).
      destruct (sample_at p) as [s|e]; simpl;
        [|exists e; split; [reflexivity|discriminate]].
      destruct (IH (<[l := <[k0 := s]> row]> cells) (<[k0 := s]> row) l (S k0))
        as (e & -> & He).
      * apply list_lookup_insert_eq. eapply lookup_lt_Some, Hl.
      * rewrite length_insert. lia.
      * exists e. split; [reflexivity|].
        intros ss Hss. bind_inv Hss. eapply He, Ha.
    + destruct (sample_point_overflow cells row l k0 p Hl Hk) as (e & -> & He).
      exists e. split; [reflexivity|].
      intros ss Hss. bind_inv Hss. eapply He, Ha.
Qed.

(** The loops below are reasoned about for any capacity. *)
Local Opaque capacity.

Abbreviation transect_at :=
  (sample_transect interpolate_along_transect nearest_along_transect
     sn exp1_xm exp1_ym).
Abbreviation fresh_rows n := (replicate n (replicate capacity sample0)).

Lemma sample_transect_eq (b : buffers) (l : nat) (po : list point) :
  transect_at b l po =
  b' ← for_enumerate (step_at l) 0%nat b po;
  _ ← Np.getitem point_names (Z.of_nat l);
  Ok b'.
Proof. reflexivity. Qed.

Lemma fresh_row_lookup (filled : list (list sample)) (n : nat) :
  (filled ++ fresh_rows (S n)) !! length filled
  = Some (replicate capacity sample0).
Proof. simpl. apply list_lookup_middle. reflexivity. Qed.

Lemma fresh_row_insert (filled rows : list (list sample))
    (row r : list sample) :
  <[length filled := row]> (filled ++ r :: rows) = (filled ++ [row]) ++ rows.
Proof.
  rewrite insert_app_r_alt, Nat.sub_diag by lia. simpl.
  rewrite <- app_assoc. reflexivity.
Qed.

(** The outer loop from transect [l0] on: rows below [l0] are filled, the
    others still hold the zeros of the allocation. *)
Lemma outer_loop_in_bounds (rest : list (list point)) :
  ∀ (filled : list (list sample)) (l0 : nat),
  l0 = length filled →
  (l0 + length rest ≤ 8)%nat →
  Forall (λ po, (length po ≤ capacity)%nat) rest →
  for_enumerate transect_at l0
    (pack (filled ++ fresh_rows (length rest))) rest =
  sss ← mapM (mapM sample_at) rest; Ok (pack (filled ++ (padded <$> sss))).
Proof.
  induction rest as [|po rest IH]; intros filled l0 -> Hnames Hcap.
  - reflexivity.
  - apply Forall_cons in Hcap as [Hpo Hcap]. simpl in Hnames.
    change (length (po :: rest)) with (S (length rest)).
    rewrite for_enumerate_cons, mapM_cons, sample_transect_eq.
    rewrite (inner_loop_in_bounds po _ _ _ 0 (fresh_row_lookup filled _))
      by (rewrite length_replicate; simpl; lia).
    destruct (mapM sample_at po) as [ss|e] eqn:Hss; simpl; [|reflexivity].
    rewrite getitem_nat.
    destruct (lookup_lt_is_Some_2 point_names (length filled)) as [nm ->];
      [simpl; lia|]. simpl.
    rewrite inserts_padded by (rewrite (mapM_length _ _ _ Hss); exact Hpo).
    rewrite fresh_row_insert.
    rewrite (IH (filled ++ [padded ss]) (S (length filled)));
      [|rewrite length_app; simpl; lia|lia|exact Hcap].
    destruct (mapM (mapM sample_at) rest) as [sss|e]; simpl; [|reflexivity].
    rewrite <- app_assoc. reflexivity.
Qed.

Lemma outer_loop_overflow (rest : list (list point)) :
  ∀ (filled : list (list sample)) (l0 : nat),
  l0 = length filled → (l0 ≤ 8)%nat →
  ¬ Forall (λ po, (length po ≤ capacity)%nat) rest ∨ (8 < l0 + length rest)%nat →
  ∃ e, for_enumerate transect_at l0
         (pack (filled ++ fresh_rows (length rest))) rest = Raise e ∧
       ∀ sss, mapM (mapM sample_at) rest = Ok sss → e = IndexError.
Proof.
  induction rest as [|po rest IH]; intros filled l0 -> Hl0 Hover.
  - destruct Hover as [Hover|Hover]; [destruct Hover; constructor|simpl in Hover; lia].
  - change (length (po :: rest)) with (S (length rest)) in *.
    rewrite for_enumerate_cons, sample_transect_eq.
    destruct (decide (length po ≤ capacity)%nat) as [Hpo|Hpo].
    + rewrite (inner_loop_in_bounds po _ _ _ 0 (fresh_row_lookup filled _))
        by (rewrite length_replicate; simpl; lia).
      destruct (mapM sample_at po) as [ss|e] eqn:Hss; simpl.
      2:{ exists e. split; [reflexivity|]. intros sss H.
          rewrite ?mapM_cons, ?Hss in H. discriminate. }
      rewrite getitem_nat.
      destruct (decide (length filled < 8)%nat) as [Hl|Hl].
      * destruct (lookup_lt_is_Some_2 point_names (length filled)) as [nm ->];
          [exact Hl|]. simpl.
        rewrite inserts_padded by (rewrite (mapM_length _ _ _ Hss); exact Hpo).
        rewrite fresh_row_insert.
        destruct (IH (filled ++ [padded ss]) (S (length filled)))
          as (e & -> & He); [rewrite length_app; simpl; lia|lia|..].
        { destruct Hover as [Hover|Hover]; [left|right; simpl in Hover; lia].
          intros Hrest. apply Hover. by constructor. }
        exists e. split; [reflexivity|]. intros sss H.
        rewrite ?mapM_cons, ?Hss in H. simpl in H. bind_inv H. eapply He, Ha.
      * rewrite lookup_ge_None_2 by (simpl; lia). simpl.
        exists IndexError. split; reflexivity.
    + destruct (inner_loop_overflow po _ _ _ 0
                  (fresh_row_lookup filled (length rest)))
        as (e & -> & He); [rewrite length_replicate; lia|].
      exists e. split; [reflexivity|]. intros sss H.
      rewrite ?mapM_cons in H. bind_inv H. eapply He, Ha.
Qed.

Abbreviation sample_all_at :=
  (sample_all interpolate_along_transect nearest_along_transect
     sn exp1_xm exp1_ym).

Lemma sample_all_in_bounds (trans : list (list point)) :
  (length trans ≤ 8)%nat →
  Forall (λ po, (length po ≤ capacity)%nat) trans →
  sample_all_at trans =
  sss ← mapM (mapM sample_at) trans; Ok (pack (padded <$> sss)).
Proof.
  intros Hn Hcap. unfold sample_all. rewrite allocate_pack.
  apply (outer_loop_in_bounds trans [] 0%nat); [reflexivity|lia|exact Hcap].
Qed.

Lemma sample_all_overflow (trans : list (list point)) :
  ¬ Forall (λ po, (length po ≤ capacity)%nat) trans ∨ (8 < length trans)%nat →
  ∃ e, sample_all_at trans = Raise e ∧
       ∀ sss, mapM (mapM sample_at) trans = Ok sss → e = IndexError.
Proof.
  intros Hover. unfold sample_all. rewrite allocate_pack.
  apply (outer_loop_overflow trans [] 0%nat); [reflexivity|lia|].
  destruct Hover; [by left|right; lia].
Qed.

Lemma sample_all_Ok (trans : list (list point)) (b : buffers) :
  sample_all_at trans = Ok b →
  (length trans ≤ 8)%nat ∧
  Forall (λ po, (length po ≤ capacity)%nat) trans ∧
  ∃ sss, mapM (mapM sample_at) trans = Ok sss ∧ b = pack (padded <$> sss).
Proof.
  intros Hb.
  destruct (decide (Forall (λ po, (length po ≤ capacity)%nat) trans)) as [Hcap|Hcap].
  2:{ destruct (sample_all_overflow trans (or_introl Hcap)) as (e & He & _).
      rewrite He in Hb. discriminate. }
  destruct (decide (length trans ≤ 8)%nat) as [Hn|Hn].
  2:{ assert (8 < length trans)%nat as Hgt by lia.
      destruct (sample_all_overflow trans (or_intror Hgt)) as (e & He & _).
      rewrite He in Hb. discriminate. }
  split; [exact Hn|]. split; [exact Hcap|].
  rewrite (sample_all_in_bounds trans Hn Hcap) in Hb.
  destruct (mapM (mapM sample_at) trans) as [sss|e]; [|discriminate].
  exists sss. split; [reflexivity|]. simpl in Hb. by injection Hb as <-.
Qed.

Local Transparent capacity.

End Sampling.

(** ** Writing the profiles *)

Lemma write_profile_packed (trans : list (list point))
    (sss : list (list sample)) (l : nat) (name : string)
    (po : list point) (ss : list sample) :
  trans !! l = Some po → sss !! l = Some ss → length ss = length po →
  write_profile trans (pack (padded <$> sss)) l name
  = Ok (name, profile_of ss).
Proof.
  intros Hpo Hss Hlen. unfold write_profile, pack. simpl.
  rewrite !getitem_nat, Hpo. simpl.
  rewrite !list_lookup_fmap, Hss. simpl.
  unfold Np.slice_to. rewrite <- !fmap_take, <- Hlen, padded_take.
  reflexivity.
Qed.

Lemma write_profiles_packed (trans : list (list point))
    (sss : list (list sample)) (names : list string) :
  Forall2 (λ po ss, length ss = length po) trans sss →
  ∀ l, (l + length names ≤ length trans)%nat →
  write_profiles trans (pack (padded <$> sss)) l names
  = Ok (zip names (profile_of <$> drop l sss)).
Proof.
  intros Hlen. induction names as [|name names IH]; intros l Hl.
  - reflexivity.
  - simpl in Hl. simpl write_profiles.
    destruct (lookup_lt_is_Some_2 trans l) as [po Hpo]; [lia|].
    destruct (Forall2_lookup_l _ _ _ _ _ Hlen Hpo) as (ss & Hss & Hlss).
    rewrite (write_profile_packed trans sss l name po ss Hpo Hss Hlss). simpl.
    rewrite IH by lia. simpl.
    rewrite (drop_S sss ss l Hss). reflexivity.
Qed.

Lemma write_profiles_Ok_length (trans : list (list point)) (b : buffers)
    (names : list string) :
  ∀ l pvs, write_profiles trans b l names = Ok pvs →
           names = [] ∨ (l + length names ≤ length trans)%nat.
Proof.
  induction names as [|name names IH]; intros l pvs H; [by left|right].
  simpl in H. bind_inv H. unfold write_profile in Ha. bind_inv Ha.
  rewrite getitem_nat in Ha1.
  destruct (trans !! l) as [po|] eqn:Hpo; [|discriminate].
  apply lookup_lt_Some in Hpo.
  destruct (IH _ _ Ha0) as [->|Hle]; simpl; lia.
Qed.

(** ** The assignments to the global variables *)














(** ** The whole run *)

Lemma padded_lookup (sss : list (list sample)) (f : sample → float)
    (l k : nat) (ss : list sample) (s : sample) :
  sss !! l = Some ss → ss !! k = Some s →
  (fmap (M := list) f <$> (padded <$> sss)) !! l ≫= (.!! k) = Some (f s).
Proof.
  intros Hss Hs. rewrite !list_lookup_fmap, Hss. simpl.
  rewrite list_lookup_fmap. unfold padded.
  rewrite lookup_app_l by (eapply lookup_lt_Some, Hs).
  rewrite Hs. reflexivity.
Qed.

Section Run.
Context {libm : Libm}.
Variable get_troughs : list transect → float → result (list (list point)).
Variable interpolate_along_transect :
  array2 → Z → Z → float → float → result float.
Variable nearest_along_transect : imask → Z → Z → float → float → result Z.

Abbreviation the_run :=
  (run get_troughs interpolate_along_transect nearest_along_transect).
Abbreviation the_prepare :=
  (prepare get_troughs interpolate_along_transect nearest_along_transect).
Abbreviation sampled_at sn xm ym :=
  (point_sample interpolate_along_transect nearest_along_transect sn xm ym).
Abbreviation sampling sn xm ym :=
  (sample_all interpolate_along_transect nearest_along_transect sn xm ym).

(** Once both files are read, the script goes straight from the mask
    shape to the point generator, the meshes and the sampling loops. *)
Lemma prepare_after_reading (ds ts : Dataset) (sn : snapshot)
    (tsr : timeseries) :
  read_snapshot ds = Ok sn → read_timeseries ts = Ok tsr →
  the_prepare ds ts =
  trans ← get_troughs (planned sn) dp;
  '(xm, ym) ← build_mesh (grid sn).1 (grid sn).2 (exp1_x sn) (exp1_y sn);
  b ← sampling sn xm ym trans;
  Ok {| s_snap := sn; s_ts := tsr; s_trans := trans; s_buf := b |}.
Proof.
  intros Hsn Hts. unfold prepare, planned, grid. rewrite Hsn. simpl.
  destruct (Np.shape (exp1_mask sn)) as [Mx My]. rewrite Hts. reflexivity.
Qed.

Lemma prepare_Ok (ds ts : Dataset) (st : sampled) :
  the_prepare ds ts = Ok st →
  ∃ xm ym sss,
    read_snapshot ds = Ok (s_snap st) ∧
    read_timeseries ts = Ok (s_ts st) ∧
    get_troughs (planned (s_snap st)) dp = Ok (s_trans st) ∧
    build_mesh (grid (s_snap st)).1 (grid (s_snap st)).2
      (exp1_x (s_snap st)) (exp1_y (s_snap st)) = Ok (xm, ym) ∧
    mapM (mapM (sampled_at (s_snap st) xm ym)) (s_trans st) = Ok sss ∧
    (length (s_trans st) ≤ 8)%nat ∧
    Forall (λ po, (length po ≤ capacity)%nat) (s_trans st) ∧
    s_buf st = pack (padded <$> sss).
Proof.
  intros H.
  destruct (read_snapshot ds) as [sn|e] eqn:Hsn;
    [|unfold prepare in H; rewrite Hsn in H; discriminate].
  destruct (read_timeseries ts) as [tsr|e] eqn:Hts.
  2:{ unfold prepare in H. rewrite Hsn in H. simpl in H.
      destruct (Np.shape (exp1_mask sn)). rewrite Hts in H. discriminate. }
  rewrite (prepare_after_reading ds ts sn tsr Hsn Hts) in H.
  bind_inv H. destruct a0 as [xm ym]. bind_inv H. injection H as <-.
  simpl.
  destruct (sample_all_Ok _ _ _ _ _ _ _ Ha1) as (Hn & Hcap & sss & Hsss & ->).
  exists xm, ym, sss. repeat split; assumption.
Qed.

Lemma run_Saved (ds ts : Dataset) (f : ncfile) :
  the_run ds ts = Saved f ↔
  ∃ st, the_prepare ds ts = Ok st ∧ write st = Ok f.
Proof.
  unfold run. split.
  - destruct (the_prepare ds ts) as [st|e]; [|discriminate].
    destruct (write st) as [f'|e] eqn:Hw; [|discriminate].
    intros [= <-]. by exists st.
  - intros (st & -> & ->). reflexivity.
Qed.

(** A sampled state whose file could be written has at least the eight
    transects the writer names, and the file holds one profile per name,
    cut to the samples of that transect's points. *)
Lemma write_sampled (st : sampled) (sss : list (list sample)) (f : ncfile) :
  Forall2 (λ po ss, length ss = length po) (s_trans st) sss →
  s_buf st = pack (padded <$> sss) →
  write st = Ok f →
  (8 ≤ length (s_trans st))%nat ∧
  f = file_of (s_snap st) (s_ts st) (zip point_names (profile_of <$> sss)).
Proof.
  intros Hlen Hbuf Hw. unfold write in Hw. rewrite Hbuf in Hw.
  bind_inv Hw.
  destruct (write_profiles_Ok_length _ _ _ _ _ Ha1) as [Hnil|Hle];
    [discriminate|].
  rewrite (write_profiles_packed _ sss point_names Hlen 0%nat Hle) in Ha1.
  injection Ha1 as <-. injection Hw as <-. rewrite drop_0.
  split; [exact Hle|reflexivity].
Qed.


Lemma samples_lengths {A B} (f : A → result B) (trans : list (list A))
    (sss : list (list B)) :
  mapM (mapM f) trans = Ok sss →
  Forall2 (λ po ss, length ss = length po) trans sss.
Proof.
  intros H. apply mapM_Ok in H. eapply Forall2_impl; [exact H|].
  intros po ss Hss. by apply mapM_length in Hss.
Qed.

Lemma samples_lookup {A B} (f : A → result B) (trans : list (list A))
    (sss : list (list B)) (l k : nat) (po : list A) (p : A) :
  mapM (mapM f) trans = Ok sss →
  trans !! l = Some po → po !! k = Some p →
  ∃ ss s, sss !! l = Some ss ∧ ss !! k = Some s ∧
          mapM f po = Ok ss ∧ f p = Ok s.
Proof.
  intros H Hpo Hp. apply mapM_Ok in H.
  destruct (Forall2_lookup_l _ _ _ _ _ H Hpo) as (ss & Hss & Hm).
  pose proof Hm as Hm'. apply mapM_Ok in Hm'.
  destruct (Forall2_lookup_l _ _ _ _ _ Hm' Hp) as (s & Hs & Hf).
  by exists ss, s.
Qed.

(** A completed run, taken apart. *)
Lemma run_Saved_inv (ds ts : Dataset) (f : ncfile) :
  the_run ds ts = Saved f →
  ∃ st xm ym sss,
    the_prepare ds ts = Ok st ∧ write st = Ok f ∧
    read_snapshot ds = Ok (s_snap st) ∧
    read_timeseries ts = Ok (s_ts st) ∧
    get_troughs (planned (s_snap st)) dp = Ok (s_trans st) ∧
    build_mesh (grid (s_snap st)).1 (grid (s_snap st)).2
      (exp1_x (s_snap st)) (exp1_y (s_snap st)) = Ok (xm, ym) ∧
    mapM (mapM (sampled_at (s_snap st) xm ym)) (s_trans st) = Ok sss ∧
    length (s_trans st) = 8%nat ∧
    Forall (λ po, (length po ≤ capacity)%nat) (s_trans st) ∧
    s_buf st = pack (padded <$> sss) ∧
    f = file_of (s_snap st) (s_ts st) (zip point_names (profile_of <$> sss)).
Proof.
  intros H. apply run_Saved in H as (st & Hp & Hw).
  destruct (prepare_Ok ds ts st Hp)
    as (xm & ym & sss & Hsn & Hts & Htr & Hmesh & Hsss & Hn & Hcap & Hbuf).
  destruct (write_sampled st sss f (samples_lengths _ _ _ Hsss) Hbuf Hw)
    as [Hge ->].
  exists st, xm, ym, sss. repeat split; try assumption. lia.
Qed.

Lemma point_sample_Ok (sn : snapshot) (xm ym : array2) (p : point)
    (s : sample) :
  sampled_at sn xm ym p = Ok s →
  ∃ c x y,
    decompose p = Ok c ∧
    interpolate_along_transect ym (c_i c) (c_j c) (c_di c) (c_dj c) = Ok x ∧
    interpolate_along_transect xm (c_i c) (c_j c) (c_di c) (c_dj c) = Ok y ∧
    smp_x s = x ∧ smp_y s = y ∧ smp_s s = hypot x y.
Proof.
  unfold point_sample. intros H. bind_inv H. destruct a as [i j di dj].
  bind_inv H. injection H as <-.
  exists {| c_i := i; c_j := j; c_di := di; c_dj := dj |}, a, a0.
  repeat split; simpl; assumption || reflexivity.
Qed.

Lemma read_snapshot_parts (ds : Dataset) (sn : snapshot) :
  read_snapshot ds = Ok sn →
  read_mask ds = Ok (exp1_mask sn) ∧ read_field ds "topg" = Ok (exp1_topg sn).
Proof.
  unfold read_snapshot. intros H. bind_inv H.
  destruct a3 as [[xvm yvm] thk]. bind_inv H.
  injection H as <-. split; assumption.
Qed.

Lemma normalize_lookup (a : array2) (r c : nat) :
  normalize a !! r ≫= (.!! c) = nan_if_zero <$> (a !! r ≫= (.!! c)).
Proof.
  unfold normalize. rewrite list_lookup_fmap.
  destruct (a !! r) as [row|]; simpl; [|reflexivity].
  apply list_lookup_fmap.
Qed.

Lemma profiles_lookup (sss : list (list sample)) (l : nat) (name : string)
    (pv : profile_vars) :
  zip point_names (profile_of <$> sss) !! l = Some (name, pv) →
  ∃ ss, sss !! l = Some ss ∧ pv = profile_of ss ∧ point_names !! l = Some name.
Proof.
  intros H. apply lookup_zip_with_Some in H as (nm & pv' & [= -> ->] & Hn & Hpv).
  rewrite list_lookup_fmap in Hpv.
  destruct (sss !! l) as [ss|]; [|discriminate].
  injection Hpv as <-. by exists ss.
Qed.

(** C2: in the file of a completed run the full thickness and velocity
    fields are the arrays read from the snapshot with every cell equal to
    zero replaced by NaN and every other cell unchanged; the mask is the
    remapped mask as read and the bedrock elevation the array as read;
    the profiles hold samples of the fields as read, not of the
    normalized ones. *)
Theorem missing_value_normalization (ds ts : Dataset) (f : ncfile) :
  the_run ds ts = Saved f →
  ∃ sn,
    read_snapshot ds = Ok sn ∧
    nc_lithk f = normalize (exp1_thk sn) ∧
    nc_xvelmean f = normalize (exp1_xvm sn) ∧
    nc_yvelmean f = normalize (exp1_yvm sn) ∧
    (∀ a r c, normalize a !! r ≫= (.!! c) = nan_if_zero <$> (a !! r ≫= (.!! c))) ∧
    (∀ v, PrimFloat.eqb v 0%float = true → nan_if_zero v = PrimFloat.nan) ∧
    (∀ v, PrimFloat.eqb v 0%float = false → nan_if_zero v = v) ∧
    read_mask ds = Ok (exp1_mask sn) ∧
    nc_mask f = fmap (M := list) Np.float_of_Z <$> exp1_mask sn ∧
    read_field ds "topg" = Ok (nc_topg f) ∧
    ∃ trans xm ym sss,
      get_troughs (planned sn) dp = Ok trans ∧
      build_mesh (grid sn).1 (grid sn).2 (exp1_x sn) (exp1_y sn) = Ok (xm, ym) ∧
      mapM (mapM (sampled_at sn xm ym)) trans = Ok sss ∧
      nc_profiles f = zip point_names (profile_of <$> sss).
Proof.
  intros H.
  destruct (run_Saved_inv ds ts f H)
    as (st & xm & ym & sss & _ & _ & Hsn & _ & Htr & Hmesh & Hsss & _ & _ & _ & ->).
  destruct (read_snapshot_parts ds _ Hsn) as [Hmask Htopg].
  exists (s_snap st). simpl.
  do 4 (split; [done|]).
  split; [apply normalize_lookup|].
  split; [intros v Hv; unfold nan_if_zero; by rewrite Hv|].
  split; [intros v Hv; unfold nan_if_zero; by rewrite Hv|].
  do 3 (split; [done|]).
  by exists (s_trans st), xm, ym, sss.
Qed.

Lemma decompose_Ok (p : point) (c : cell) :
  decompose p = Ok c →
  Np.int (Np.floor p.2) = Ok (c_i c) ∧
  Np.int (Np.floor p.1) = Ok (c_j c) ∧
  c_di c = PrimFloat.sub p.1 (Np.floor p.1) ∧
  c_dj c = PrimFloat.sub p.2 (Np.floor p.2).
Proof.
  unfold decompose. intros H.
  destruct (Np.int (Np.floor p.2)) as [i|]; [|discriminate].
  destruct (Np.int (Np.floor p.1)) as [j|]; [|discriminate].
  injection H as <-. repeat split; reflexivity.
Qed.

(** C3: for every sample point [p = trans[l][k]] the distance stored in
    [sav[l, k]], and written to the profile, is sqrt(x**2 + y**2), the
    squares being taken by the power function of the C library, where
    [x] and [y] are the two coordinates interpolated from the meshes at
    that point: [x] from [exp1_ym] and [y] from [exp1_xm], both at the
    cell [i = int(floor(p[1]))], [j = int(floor(p[0]))] with the offsets
    [di = p[0] - floor(p[0])], [dj = p[1] - floor(p[1])].  It is the
    distance from the origin of the physical coordinates, whatever the
    path before the point. *)
Theorem radial_distance (ds ts : Dataset) (st : sampled) :
  the_prepare ds ts = Ok st →
  ∃ xm ym,
    build_mesh (grid (s_snap st)).1 (grid (s_snap st)).2
      (exp1_x (s_snap st)) (exp1_y (s_snap st)) = Ok (xm, ym) ∧
    ∀ l po k p,
      s_trans st !! l = Some po → po !! k = Some p →
      ∃ i j x y,
        Np.int (Np.floor p.2) = Ok i ∧
        Np.int (Np.floor p.1) = Ok j ∧
        interpolate_along_transect ym i j
          (PrimFloat.sub p.1 (Np.floor p.1))
          (PrimFloat.sub p.2 (Np.floor p.2)) = Ok x ∧
        interpolate_along_transect xm i j
          (PrimFloat.sub p.1 (Np.floor p.1))
          (PrimFloat.sub p.2 (Np.floor p.2)) = Ok y ∧
        xav (s_buf st) !! l ≫= (.!! k) = Some x ∧
        yav (s_buf st) !! l ≫= (.!! k) = Some y ∧
        sav (s_buf st) !! l ≫= (.!! k)
        = Some (PrimFloat.sqrt (PrimFloat.add (npy_pow x 2%float)
                                              (npy_pow y 2%float))) ∧
        ∀ f name pv,
          write st = Ok f → nc_profiles f !! l = Some (name, pv) →
          p_s pv !! k
          = Some (PrimFloat.sqrt (PrimFloat.add (npy_pow x 2%float)
                                                (npy_pow y 2%float))).
Proof.
  intros H.
  destruct (prepare_Ok ds ts st H)
    as (xm & ym & sss & _ & _ & _ & Hmesh & Hsss & _ & _ & Hbuf).
  exists xm, ym. split; [exact Hmesh|].
  intros l po k p Hpo Hp.
  destruct (samples_lookup _ _ _ _ _ _ _ Hsss Hpo Hp) as (ss & s & Hss & Hs & _ & Hps).
  destruct (point_sample_Ok _ _ _ _ _ Hps) as (c & x & y & Hc & Hx & Hy & Hsx & Hsy & Hsd).
  destruct (decompose_Ok p c Hc) as (Hi & Hj & Hdi & Hdj).
  rewrite Hdi, Hdj in Hx, Hy.
  exists (c_i c), (c_j c), x, y. do 4 (split; [assumption|]).
  rewrite Hbuf. unfold pack. simpl.
  rewrite !(padded_lookup sss _ l k ss s Hss Hs), Hsx, Hsy, Hsd.
  do 3 (split; [reflexivity|]).
  intros f name pv Hw Hpv.
  destruct (write_sampled st sss f (samples_lengths _ _ _ Hsss) Hbuf Hw) as [_ ->].
  cbn [nc_profiles file_of] in Hpv.
  apply profiles_lookup in Hpv as (ss' & Hss' & -> & _).
  rewrite Hss in Hss'. injection Hss' as <-. simpl.
  rewrite list_lookup_fmap, Hs. simpl. by rewrite Hsd.
Qed.

(** C9: in the file of a completed run the profile of every transect has
    the size of that transect's own point sequence, and each of its
    arrays (distance twice, thickness, mask, the two velocities) holds
    exactly the samples of those points, in order: the zeros left in the
    buffer row and the rows of other transects are not written. *)
Theorem profile_truncation (ds ts : Dataset) (f : ncfile) :
  the_run ds ts = Saved f →
  ∃ sn xm ym trans,
    read_snapshot ds = Ok sn ∧
    get_troughs (planned sn) dp = Ok trans ∧
    build_mesh (grid sn).1 (grid sn).2 (exp1_x sn) (exp1_y sn) = Ok (xm, ym) ∧
    (nc_profiles f).*1 = point_names ∧
    ∀ l name pv,
      nc_profiles f !! l = Some (name, pv) →
      ∃ po ss,
        trans !! l = Some po ∧
        mapM (sampled_at sn xm ym) po = Ok ss ∧
        pv = profile_of ss ∧
        p_size pv = length po ∧
        length (p_x pv) = length po ∧ length (p_s pv) = length po ∧
        length (p_lithk pv) = length po ∧ length (p_mask pv) = length po ∧
        length (p_xvelmean pv) = length po ∧
        length (p_yvelmean pv) = length po.
Proof.
  intros H.
  destruct (run_Saved_inv ds ts f H)
    as (st & xm & ym & sss & _ & _ & Hsn & _ & Htr & Hmesh & Hsss & Hn & _ & _ & ->).
  exists (s_snap st), xm, ym, (s_trans st). do 3 (split; [assumption|]).
  pose proof (samples_lengths _ _ _ Hsss) as Hlen.
  split.
  { cbn [nc_profiles file_of]. apply fst_zip.
    rewrite length_fmap, <- (Forall2_length _ _ _ Hlen), Hn. reflexivity. }
  intros l name pv Hpv. cbn [nc_profiles file_of] in Hpv.
  apply profiles_lookup in Hpv as (ss & Hss & -> & _).
  pose proof Hsss as HF. apply mapM_Ok in HF.
  destruct (Forall2_lookup_r _ _ _ _ _ HF Hss) as (po & Hpo & Hm).
  exists po, ss. pose proof (mapM_length _ _ _ Hm) as Hl.
  do 3 (split; [done|]). simpl. rewrite !length_fmap. repeat split; exact Hl.
Qed.

(** C10: every buffer is allocated with 300 slots per transect; the
    loop stores point [k] of transect [l] in slot [(l, k)]; sampling
    completes only if no transect has more than 300 points, and when
    every point can be sampled (and there are at most the eight named
    transects) it completes exactly in that case: otherwise the store
    past the end of the row raises IndexError. *)
Theorem buffer_capacity (sn : snapshot) (xm ym : array2)
    (trans : list (list point)) :
  Forall (λ a : array2,
            length a = length trans ∧
            Forall (λ row, length row = 300%nat) a)
         (let b := allocate (length trans) in
          [xav b; yav b; Hav b; mav b; uav b; vav b; sav b]) ∧
  (∀ cells row l k p s,
     cells !! l = Some row → (k < length row)%nat →
     sampled_at sn xm ym p = Ok s →
     sample_point interpolate_along_transect nearest_along_transect
       sn xm ym l (pack cells) k p
     = Ok (pack (<[l := <[k := s]> row]> cells))) ∧
  (∀ b, sampling sn xm ym trans = Ok b →
        Forall (λ po, (length po ≤ 300)%nat) trans) ∧
  (∀ sss,
     mapM (mapM (sampled_at sn xm ym)) trans = Ok sss →
     (length trans ≤ 8)%nat →
     (Forall (λ po, (length po ≤ 300)%nat) trans →
      sampling sn xm ym trans = Ok (pack (padded <$> sss))) ∧
     (¬ Forall (λ po, (length po ≤ 300)%nat) trans →
      sampling sn xm ym trans = Raise IndexError)) ∧
  (∀ ds ts f,
     the_run ds ts = Saved f →
     ∃ sn' trans',
       read_snapshot ds = Ok sn' ∧
       get_troughs (planned sn') dp = Ok trans' ∧
       Forall (λ po, (length po ≤ 300)%nat) trans').
Proof.
  split.
  { simpl. unfold Np.zeros.
    repeat (apply Forall_cons; split;
            [split; [apply length_replicate|
                     apply Forall_replicate, length_replicate]|]).
    apply Forall_nil_2. }
  split.
  { intros cells row l k p s Hl Hk Hs.
    rewrite (sample_point_in_bounds _ _ _ _ _ cells row l k p Hl Hk), Hs.
    reflexivity. }
  split.
  { intros b Hb. by destruct (sample_all_Ok _ _ _ _ _ _ _ Hb) as (_ & Hcap & _). }
  split.
  { intros sss Hsss Hn. split.
    - intros Hcap.
      rewrite (sample_all_in_bounds _ _ _ _ _ trans Hn Hcap), Hsss.
      reflexivity.
    - intros Hcap.
      destruct (sample_all_overflow interpolate_along_transect
                  nearest_along_transect sn xm ym trans (or_introl Hcap))
        as (e & He & Hidx).
      rewrite He. f_equal. eapply Hidx, Hsss. }
  intros ds ts f H.
  destruct (run_Saved_inv ds ts f H)
    as (st & _ & _ & _ & _ & _ & Hsn & _ & Htr & _ & _ & _ & Hcap & _).
  by exists (s_snap st), (s_trans st).
Qed.

(** C5, amended: the script has no parity check.  Once the two files are
    read it computes Mp = int((Mx-1)/2.0), for an even Mx > 0 the index
    Mx/2 - 1, plans the eight transects from (Mp, Mp) and hands them to
    the point generator; My does not enter the start.  From there on
    only the point generator, the mesh loops, the sampling loops and the
    writer can end the run. *)
Theorem no_parity_check (ds ts : Dataset) (sn : snapshot) (tsr : timeseries) :
  read_snapshot ds = Ok sn → read_timeseries ts = Ok tsr →
  the_prepare ds ts =
    (trans ← get_troughs (planned sn) dp;
     '(xm, ym) ← build_mesh (grid sn).1 (grid sn).2 (exp1_x sn) (exp1_y sn);
     b ← sampling sn xm ym trans;
     Ok {| s_snap := sn; s_ts := tsr; s_trans := trans; s_buf := b |}) ∧
  Forall (λ t, t_start t = (Mp (Z.of_nat (grid sn).1), Mp (Z.of_nat (grid sn).1)))
         (planned sn) ∧
  (Z.even (Z.of_nat (grid sn).1) = true → (0 < (grid sn).1)%nat →
   2 * Mp (Z.of_nat (grid sn).1) + 2 = Z.of_nat (grid sn).1) ∧
  (∀ e, get_troughs (planned sn) dp = Raise e → the_run ds ts = Crashed e).
Proof.
  intros Hsn Hts.
  pose proof (prepare_after_reading ds ts sn tsr Hsn Hts) as Hp.
  split; [exact Hp|]. split.
  { unfold planned, transects. repeat (apply Forall_cons; split; [reflexivity|]).
    apply Forall_nil_2. }
  split.
  { intros Hev Hpos. apply Mp_even; [exact Hev|lia]. }
  intros e He. unfold run. rewrite Hp, He. reflexivity.
Qed.

End Run.

(** ** The run on test data *)

Lemma missing_value_normalization_witness :
  ∃ f sn,
    run_model (Fixture.snapshot_file Fixture.primary 7 2) Fixture.ts_file
    = Saved f ∧
    read_snapshot (Fixture.snapshot_file Fixture.primary 7 2) = Ok sn ∧
    nc_lithk f = normalize (exp1_thk sn) ∧
    nc_yvelmean f = normalize (exp1_yvm sn).
Proof.
  assert (∃ f, run_model (Fixture.snapshot_file Fixture.primary 7 2)
                 Fixture.ts_file = Saved f) as [f Hf]
    by (vm_compute; eexists; reflexivity).
  destruct (missing_value_normalization _ _ _ _ _ f Hf)
    as (sn & Hsn & Hthk & _ & Hyvm & _).
  exists f, sn. repeat split; assumption.
Defined.

(** On the test grid the y velocity is zero everywhere: the full field is
    written as NaN, the profile of transect A keeps the zeros it sampled. *)
Example profiles_sample_raw_fields :
  ∃ f pv,
    run_model (Fixture.snapshot_file Fixture.primary 7 2) Fixture.ts_file
    = Saved f ∧
    nc_yvelmean f = Fixture.const2 7 PrimFloat.nan ∧
    nc_profiles f !! 0%nat = Some ("A"%string, pv) ∧
    p_yvelmean pv = [0; 0; 0]%float.
Proof. vm_compute. eexists _, _. repeat split; reflexivity. Qed.

Lemma radial_distance_witness :
  ∃ st xm ym,
    prepare Helper.get_troughs Helper.interpolate_along_transect
      Helper.nearest_along_transect
      (Fixture.snapshot_file Fixture.primary 7 2) Fixture.ts_file = Ok st ∧
    build_mesh 7 7 (exp1_x (s_snap st)) (exp1_y (s_snap st)) = Ok (xm, ym) ∧
    s_trans st !! 0%nat = Some [(3, 3); (3, 4); (3, 5)]%float ∧
    ∃ x y,
      Helper.interpolate_along_transect ym 4 3 0%float 0%float = Ok x ∧
      Helper.interpolate_along_transect xm 4 3 0%float 0%float = Ok y ∧
      sav (s_buf st) !! 0%nat ≫= (.!! 1%nat)
      = Some (PrimFloat.sqrt (PrimFloat.add (PrimFloat.mul x x)
                                            (PrimFloat.mul y y))).
Proof.
  assert (∃ st, prepare Helper.get_troughs Helper.interpolate_along_transect
                  Helper.nearest_along_transect
                  (Fixture.snapshot_file Fixture.primary 7 2) Fixture.ts_file
                = Ok st ∧
                grid (s_snap st) = (7, 7)%nat ∧
                s_trans st !! 0%nat
                = Some [(3, 3); (3, 4); (3, 5)]%float) as (st & Hst & Hg & Htr)
    by (vm_compute; eexists; repeat split; reflexivity).
  destruct (radial_distance _ _ _ _ _ st Hst) as (xm & ym & Hmesh & Hpts).
  rewrite Hg in Hmesh.
  destruct (Hpts 0%nat _ 1%nat (3, 4)%float Htr eq_refl)
    as (i & j & x & y & Hi & Hj & Hx & Hy & _ & _ & Hs & _).
  vm_compute in Hi. injection Hi as <-.
  vm_compute in Hj. injection Hj as <-.
  exists st, xm, ym. do 3 (split; [assumption|]).
  exists x, y. split; [exact Hx|]. split; [exact Hy|]. exact Hs.
Defined.

(** With the origin of the axes in a corner of the grid the distances of
    transect A start at sqrt(3*3 + 3*3), not at 0 as a length along the
    path would. *)
Example distance_from_origin_not_along_path :
  ∃ f pv,
    run_model (Fixture.snapshot_file_at 0 Fixture.primary 7 2) Fixture.ts_file
    = Saved f ∧
    nc_profiles f !! 0%nat = Some ("A"%string, pv) ∧
    p_s pv = [hypot 3 3; hypot 3 4; hypot 3 5]%float.
Proof. vm_compute. eexists _, _. repeat split; reflexivity. Qed.

Lemma profile_truncation_witness :
  ∃ f, run_model (Fixture.snapshot_file Fixture.primary 7 2) Fixture.ts_file
       = Saved f ∧
       (nc_profiles f).*1 = point_names ∧
       ∀ l name pv, nc_profiles f !! l = Some (name, pv) →
                    length (p_s pv) = p_size pv ∧
                    length (p_lithk pv) = p_size pv ∧
                    length (p_mask pv) = p_size pv.
Proof.
  assert (∃ f, run_model (Fixture.snapshot_file Fixture.primary 7 2)
                 Fixture.ts_file = Saved f) as [f Hf]
    by (vm_compute; eexists; reflexivity).
  destruct (profile_truncation _ _ _ _ _ f Hf)
    as (sn & xm & ym & trans & _ & _ & _ & Hnames & Hprof).
  exists f. do 2 (split; [assumption|]).
  intros l name pv Hpv.
  destruct (Hprof l name pv Hpv)
    as (po & ss & _ & _ & _ & -> & _ & Hs & HH & Hm & _).
  repeat split; assumption.
Defined.

(** The sizes of the eight profiles differ: no profile is padded to the
    length of another. *)
Example profile_sizes :
  ∃ f, run_model (Fixture.snapshot_file Fixture.primary 7 2) Fixture.ts_file
       = Saved f ∧
       (λ e, (e.1, p_size e.2, length (p_s e.2))) <$> nc_profiles f
       = [("A", 3, 3); ("B", 4, 4); ("C", 3, 3); ("D", 4, 4);
          ("E", 2, 2); ("F", 3, 3); ("G", 2, 2); ("H", 4, 4)]%string%nat.
Proof. vm_compute. eexists. split; reflexivity. Qed.

Lemma buffer_capacity_witness :
  sample_all Helper.interpolate_along_transect Helper.nearest_along_transect
    Fixture.snap Fixture.xm Fixture.ym Fixture.origin_301
  = Raise IndexError.
Proof.
  destruct (buffer_capacity Helper.get_troughs
              Helper.interpolate_along_transect Helper.nearest_along_transect
              Fixture.snap Fixture.xm Fixture.ym Fixture.origin_301)
    as (_ & _ & _ & H & _).
  assert (∃ sss, mapM (mapM (point_sample Helper.interpolate_along_transect
                               Helper.nearest_along_transect
                               Fixture.snap Fixture.xm Fixture.ym))
                   Fixture.origin_301 = Ok sss) as [sss Hsss]
    by (vm_compute; eexists; reflexivity).
  apply (H sss Hsss); [simpl; lia|].
  intros HF. apply Forall_cons in HF as [HF _]. vm_compute in HF. lia.
Defined.

(** C5, as stated, fails: on a 4 x 4 grid (Mx and My even) the run raises
    nothing; it samples from the off-centre start (1, 1) and saves the
    file with its eight profiles. *)
Lemma even_grid_run_completes :
  ∃ sn f,
    read_snapshot (Fixture.snapshot_file Fixture.primary 4 2) = Ok sn ∧
    grid sn = (4, 4)%nat ∧ Z.even 4 = true ∧
    t_start <$> planned sn = replicate 8 (1, 1) ∧
    run_model (Fixture.snapshot_file Fixture.primary 4 2) Fixture.ts_file
    = Saved f ∧
    (nc_profiles f).*1 = point_names.
Proof. vm_compute. eexists _, _. repeat split; reflexivity. Qed.

Lemma no_parity_check_witness :
  ∃ sn,
    read_snapshot (Fixture.snapshot_file Fixture.primary 4 2) = Ok sn ∧
    Forall (λ t, t_start t = (Mp (Z.of_nat (grid sn).1), Mp (Z.of_nat (grid sn).1)))
           (planned sn) ∧
    (Z.even (Z.of_nat (grid sn).1) = true → (0 < (grid sn).1)%nat →
     2 * Mp (Z.of_nat (grid sn).1) + 2 = Z.of_nat (grid sn).1).
Proof.
  assert (∃ sn, read_snapshot (Fixture.snapshot_file Fixture.primary 4 2)
                = Ok sn) as [sn Hsn] by (vm_compute; eexists; reflexivity).
  assert (∃ tsr, read_timeseries Fixture.ts_file = Ok tsr) as [tsr Hts]
    by (vm_compute; eexists; reflexivity).
  destruct (no_parity_check Helper.get_troughs
              Helper.interpolate_along_transect Helper.nearest_along_transect
              _ _ sn tsr Hsn Hts) as (_ & Hstart & Heven & _).
  exists sn. repeat split; assumption.
Defined.

(** * Further properties of the script *)

(** ** The time-series file (lines 46-55) *)

Lemma getitem_ti (a : array1) :
  Np.getitem a ti =
  match sixth_last a with Some v => Ok v | None => Raise IndexError end.
Proof.
  unfold Np.getitem, ti, sixth_last. change (-6 <? 0) with true.
  cbv beta iota zeta.
  destruct (decide (6 ≤ length a)%nat) as [Hlen|Hlen].
  - rewrite (proj2 (Z.leb_le _ _)) by lia.
    rewrite (proj2 (Z.ltb_lt _ _)) by lia.
    replace (Z.to_nat (-6 + Z.of_nat (length a))) with (length a - 6)%nat
      by lia.
    reflexivity.
  - rewrite (proj2 (Z.leb_gt _ _)) by lia. reflexivity.
Qed.

Lemma read_scalar_series (ds : Dataset) (name : string) :
  read_scalar ds name =
  match series ds name with
  | Some v => Ok v
  | None =>
      match vars1 ds !! name with
      | Some _ => Raise IndexError
      | None => Raise (KeyError name)
      end
  end.
Proof.
  unfold read_scalar, series, variables.
  destruct (vars1 ds !! name) as [a|]; simpl; [|reflexivity].
  rewrite getitem_ti. destruct (sixth_last a); reflexivity.
Qed.

Lemma read_timeseries_Raise (ts : Dataset) (n : string) :
  n ∈ ts_names → series ts n = None → ∃ e, read_timeseries ts = Raise e.
Proof.
  intros Hn Hnone. unfold read_timeseries. rewrite !read_scalar_series.
  unfold ts_names in Hn. rewrite !elem_of_cons in Hn.
  destruct Hn as [->|[->|[->|[->|[->|[->|[->|Hn]]]]]]];
    [..|by apply elem_of_nil in Hn];
    rewrite Hnone;
    repeat match goal with
           | |- context [match ?o with _ => _ end] => destruct o; simpl
           end; eauto.
Qed.

Lemma slice_from_last {A} (v : list A) :
  Np.slice_from v tex = option_list (last v).
Proof.
  unfold Np.slice_from, tex. change (-1 <? 0) with true. cbv iota.
  induction v as [|x v' _] using rev_ind; [reflexivity|].
  rewrite last_snoc, length_app. simpl.
  replace (Z.to_nat (Z.max 0 (-1 + Z.of_nat (length v' + 1))))
    with (length v') by lia.
  by rewrite drop_app_length.
Qed.

Lemma read_snapshot_globals (ds : Dataset) (sn : snapshot) :
  read_snapshot ds = Ok sn →
  vars1 ds !! "x" = Some (exp1_x sn) ∧
  vars1 ds !! "y" = Some (exp1_y sn) ∧
  (∃ tm t, vars1 ds !! "time" = Some tm ∧ last tm = Some t ∧
           exp1_t sn = [model_year t]) ∧
  ∃ v, vars3 ds !! "calvingmip_calving_rate" = Some v ∧
       exp1_crate sn = scale <$> option_list (last v).
Proof.
  unfold read_snapshot, variables. intros H.
  destruct (vars1 ds !! "x") as [x|]; [|discriminate].
  destruct (vars1 ds !! "y") as [y|]; [|discriminate].
  destruct (vars1 ds !! "time") as [tm|]; [|discriminate].
  simpl in H. rewrite getitem_last in H.
  destruct (last tm) as [t|] eqn:Ht; [|discriminate]. simpl in H.
  bind_inv H. destruct a as [[xvm yvm] thk]. bind_inv H.
  destruct (vars3 ds !! "calvingmip_calving_rate") as [v|]; [|discriminate].
  injection Ha1 as <-. injection H as <-. simpl.
  rewrite slice_from_last. do 2 (split; [reflexivity|]).
  split; [by exists tm, t|by exists v].
Qed.

Section MoreRun.
Context {libm : Libm}.
Variable get_troughs : list transect → float → result (list (list point)).
Variable interpolate_along_transect :
  array2 → Z → Z → float → float → result float.
Variable nearest_along_transect : imask → Z → Z → float → float → result Z.

Abbreviation run_with :=
  (run get_troughs interpolate_along_transect nearest_along_transect).
Abbreviation prepare_with :=
  (prepare get_troughs interpolate_along_transect nearest_along_transect).

Lemma prepare_ts_Raise (ds ts : Dataset) (e : exn) :
  read_timeseries ts = Raise e → ∃ e', prepare_with ds ts = Raise e'.
Proof.
  intros H. unfold prepare.
  destruct (read_snapshot ds) as [sn|e0]; simpl; [|by exists e0].
  destruct (Np.shape (exp1_mask sn)). rewrite H. by exists e.
Qed.

(** X1: every scalar of the time-series file is the sixth entry from the
    end of its series; the two tendencies are multiplied by secperyear,
    the two areas and the two masses are written as read, each as an
    array of one value. *)
Theorem timeseries_values (ts : Dataset) (t afl agr lim limnsw cf gf : float) :
  series ts "time" = Some t →
  series ts "iareafl" = Some afl →
  series ts "iareagr" = Some agr →
  series ts "lim" = Some lim →
  series ts "limnsw" = Some limnsw →
  series ts "tendlicalvf" = Some cf →
  series ts "tendligroundf" = Some gf →
  read_timeseries ts =
    Ok {| exp1_ts_t := [model_year t]; exp1_ts_afl := [afl];
          exp1_ts_agr := [agr]; exp1_ts_lim := [lim];
          exp1_ts_limnsw := [limnsw];
          exp1_ts_tendcf := [PrimFloat.mul cf secperyear];
          exp1_ts_tendgf := [PrimFloat.mul gf secperyear] |} ∧
  ∀ ds f, run_with ds ts = Saved f →
    nc_iareafl f = [afl] ∧ nc_iareagr f = [agr] ∧
    nc_lim f = [lim] ∧ nc_limnsw f = [limnsw] ∧
    nc_tendlicalvf f = [PrimFloat.mul cf 31536000%float] ∧
    nc_tendligroundf f = [PrimFloat.mul gf 31536000%float].
Proof.
  intros Ht Hafl Hagr Hlim Hlimnsw Hcf Hgf.
  assert (read_timeseries ts =
    Ok {| exp1_ts_t := [model_year t]; exp1_ts_afl := [afl];
          exp1_ts_agr := [agr]; exp1_ts_lim := [lim];
          exp1_ts_limnsw := [limnsw];
          exp1_ts_tendcf := [PrimFloat.mul cf secperyear];
          exp1_ts_tendgf := [PrimFloat.mul gf secperyear] |}) as Hread.
  { unfold read_timeseries.
    rewrite !read_scalar_series, Ht, Hafl, Hagr, Hlim, Hlimnsw, Hcf, Hgf.
    reflexivity. }
  split; [exact Hread|].
  intros ds f H.
  destruct (run_Saved_inv _ _ _ ds ts f H)
    as (st & xm & ym & sss & _ & _ & _ & Hts & _ & _ & _ & _ & _ & _ & ->).
  rewrite Hread in Hts. injection Hts as <-. repeat split; reflexivity.
Qed.

(** X2: a series of the time-series file that is absent raises KeyError
    with its name, one with fewer than six entries raises IndexError; in
    both cases the run ends before the output file is opened. *)
Theorem timeseries_too_short (ts : Dataset) (n : string) :
  n ∈ ts_names → series ts n = None →
  (vars1 ts !! n = None → read_scalar ts n = Raise (KeyError n)) ∧
  (∀ a, vars1 ts !! n = Some a → (length a < 6)%nat ∧
        read_scalar ts n = Raise IndexError) ∧
  ∀ ds, ∃ e, run_with ds ts = Crashed e ∧
             file_created (run_with ds ts) = false.
Proof.
  intros Hn Hnone. split; [|split].
  - intros Habs. rewrite read_scalar_series, Hnone, Habs. reflexivity.
  - intros a Ha. split.
    + unfold series, sixth_last in Hnone. rewrite Ha in Hnone. simpl in Hnone.
      destruct (decide (6 ≤ length a)%nat) as [Hlen|Hlen]; [|lia].
      apply lookup_ge_None in Hnone. lia.
    + rewrite read_scalar_series, Hnone, Ha. reflexivity.
  - intros ds.
    destruct (read_timeseries_Raise ts n Hn Hnone) as [e He].
    destruct (prepare_ts_Raise ds ts e He) as [e' He'].
    exists e'. unfold run. rewrite He'. split; reflexivity.
Qed.


(** X4: the two axes are written as read, and the time coordinate is one
    value: the last entry of the snapshot's time axis divided by
    secperyear, minus 110000. *)
Theorem time_and_axes_written (ds ts : Dataset) (f : ncfile) :
  run_with ds ts = Saved f →
  vars1 ds !! "x" = Some (nc_X f) ∧
  vars1 ds !! "y" = Some (nc_Y f) ∧
  ∃ tm t, vars1 ds !! "time" = Some tm ∧ last tm = Some t ∧
          nc_Time f =
          [PrimFloat.sub (PrimFloat.div t 31536000%float) 110000%float].
Proof.
  intros H.
  destruct (run_Saved_inv _ _ _ ds ts f H)
    as (st & xm & ym & sss & _ & _ & Hsn & _ & _ & _ & _ & _ & _ & _ & ->).
  destruct (read_snapshot_globals ds _ Hsn) as (Hx & Hy & (tm & t & Htm & Ht & Het) & _).
  simpl. do 2 (split; [assumption|]). exists tm, t. rewrite Het.
  repeat split; assumption.
Qed.

End MoreRun.

Lemma timeseries_values_witness :
  read_timeseries Fixture.ts_file =
    Ok {| exp1_ts_t := [model_year 2]; exp1_ts_afl := [2%float];
          exp1_ts_agr := [2%float]; exp1_ts_lim := [2%float];
          exp1_ts_limnsw := [2%float];
          exp1_ts_tendcf := [PrimFloat.mul 2 secperyear];
          exp1_ts_tendgf := [PrimFloat.mul 2 secperyear] |}.
Proof.
  apply (timeseries_values Helper.get_troughs
           Helper.interpolate_along_transect Helper.nearest_along_transect
           Fixture.ts_file 2 2 2 2 2 2 2); reflexivity.
Defined.

Lemma timeseries_too_short_witness :
  ∃ e, run_model (Fixture.snapshot_file Fixture.primary 5 2)
         Fixture2.short_ts_file = Crashed e.
Proof.
  destruct (timeseries_too_short Helper.get_troughs
              Helper.interpolate_along_transect Helper.nearest_along_transect
              Fixture2.short_ts_file "iareafl"%string) as (_ & _ & H).
  - unfold ts_names. apply list_elem_of_further, list_elem_of_here.
  - reflexivity.
  - destruct (H (Fixture.snapshot_file Fixture.primary 5 2)) as (e & He & _).
    exists e. exact He.
Defined.


Lemma time_and_axes_written_witness :
  ∃ f, run_model (Fixture.snapshot_file Fixture.primary 5 2) Fixture.ts_file
       = Saved f ∧
       vars1 (Fixture.snapshot_file Fixture.primary 5 2) !! "x"
       = Some (nc_X f).
Proof.
  assert (∃ f, run_model (Fixture.snapshot_file Fixture.primary 5 2)
                 Fixture.ts_file = Saved f) as [f Hf]
    by (vm_compute; eexists; reflexivity).
  destruct (time_and_axes_written _ _ _ _ _ f Hf) as (Hx & _).
  exists f. split; assumption.
Defined.

(** ** The mesh loops on axes of any length (lines 108-114) *)

Lemma for_enumerate_app {A St} (body : St → nat → A → result St)
    (l1 l2 : list A) :
  ∀ (k0 : nat) (s : St),
  for_enumerate body k0 s (l1 ++ l2) =
  s' ← for_enumerate body k0 s l1;
  for_enumerate body (k0 + length l1) s' l2.
Proof.
  induction l1 as [|a l1 IH]; intros k0 s.
  - simpl. rewrite Nat.add_0_r. reflexivity.
  - simpl. destruct (body s k0 a) as [s1|e]; simpl; [|reflexivity].
    rewrite IH. replace (S k0 + length l1)%nat with (k0 + S (length l1))%nat
      by lia. reflexivity.
Qed.

(** A loop over [range(n)] whose body raises at index [k < n], after [k]
    rounds that went through, raises the same exception. *)
Lemma for_range_fail {St} (body : St → nat → result St) (n k : nat) (s0 : St)
    (e : exn) :
  (k < n)%nat →
  (∀ i s, (i < k)%nat → ∃ s', body s i = Ok s') →
  (∀ s, body s k = Raise e) →
  for_range body n s0 = Raise e.
Proof.
  intros Hk Hok Hfail. unfold for_range.
  replace n with (k + S (n - S k))%nat by lia.
  rewrite seq_app, for_enumerate_app.
  destruct (for_enumerate_seq body (λ _ _, True) k 0 0 s0 I) as (s1 & -> & _).
  { intros i s Hi _. destruct (Hok i s ltac:(lia)) as [s' Hs']. eauto. }
  simpl. rewrite Hfail. reflexivity.
Qed.

Lemma getitem_before_end {A} (a : list A) (i : nat) :
  (i < length a)%nat → ∃ v, Np.getitem a (Z.of_nat i) = Ok v.
Proof.
  intros H. destruct (lookup_lt_is_Some_2 a i H) as [v Hv].
  exists v. rewrite getitem_nat, Hv. reflexivity.
Qed.

Lemma build_mesh_take (Mx My : nat) (x y : array1) :
  (Mx ≤ length x)%nat → (My ≤ length y)%nat →
  build_mesh Mx My x y = build_mesh Mx My (take Mx x) (take My y).
Proof.
  intros HMx HMy. unfold build_mesh, for_range.
  assert (∀ (a : array1) (n : nat) (St : Type) (f : St → nat → float → St)
            (k0 : nat) (l : list nat) (s : St),
            Forall (λ i, (i < n)%nat) l →
            for_enumerate (λ s _ i, v ← Np.getitem a (Z.of_nat i); Ok (f s i v))
              k0 s l =
            for_enumerate (λ s _ i, v ← Np.getitem (take n a) (Z.of_nat i);
                                    Ok (f s i v)) k0 s l) as Hloop.
  { intros a n St f k0 l. revert k0.
    induction l as [|i l IH]; intros k0 s Hl; [reflexivity|].
    apply Forall_cons in Hl as [Hi Hl]. simpl.
    rewrite !getitem_nat, lookup_take_lt by exact Hi.
    destruct (a !! i); simpl; [apply IH, Hl|reflexivity]. }
  assert (∀ n, Forall (λ i, (i < n)%nat) (seq 0 n)) as Hseq.
  { intros n. apply Forall_forall. intros i Hi.
    apply list_elem_of_In, in_seq in Hi. lia. }
  rewrite (Hloop x Mx array2 (λ m i v, <[i := replicate My v]> m) _ _ _ (Hseq Mx)).
  rewrite (Hloop y My array2 (λ m j v, (λ row, <[j := v]> row) <$> m) _ _ _ (Hseq My)).
  reflexivity.
Qed.

Lemma build_mesh_short (Mx My : nat) (x y : array1) :
  (length x < Mx)%nat ∨ (length y < My)%nat →
  build_mesh Mx My x y = Raise IndexError.
Proof.
  intros Hshort. unfold build_mesh.
  destruct (decide (Mx ≤ length x)%nat) as [HMx|HMx].
  - assert (length y < My)%nat as HMy by lia.
    destruct (for_range_inv
      (λ m i, v ← Np.getitem x (Z.of_nat i); Ok (<[i := replicate My v]> m))
      (λ _ _, True) Mx (Np.zeros Mx My) I) as (xm & -> & _).
    { intros i m Hi _.
      destruct (getitem_before_end x i ltac:(lia)) as [v ->]. simpl. eauto. }
    simpl.
    rewrite (for_range_fail _ My (length y) _ IndexError HMy); [reflexivity|..].
    + intros j m Hj. destruct (getitem_before_end y j Hj) as [v ->].
      simpl. eauto.
    + intros m. rewrite getitem_past_end by lia. reflexivity.
  - rewrite (for_range_fail _ Mx (length x) _ IndexError); [reflexivity|lia|..].
    + intros i m Hi. destruct (getitem_before_end x i Hi) as [v ->].
      simpl. eauto.
    + intros m. rewrite getitem_past_end by lia. reflexivity.
Qed.

(** X5: the mesh loops index [exp1_x] by [range(Mx)] and [exp1_y] by
    [range(My)]: they go through exactly when the x axis has at least
    Mx and the y axis at least My entries, use the first Mx and My
    entries and ignore the rest; a shorter axis raises IndexError. *)
Theorem build_mesh_bounds (Mx My : nat) (x y : array1) :
  build_mesh Mx My x y =
  if decide ((Mx ≤ length x)%nat ∧ (My ≤ length y)%nat)
  then Ok ((λ v, replicate My v) <$> take Mx x, replicate Mx (take My y))
  else Raise IndexError.
Proof.
  destruct (decide ((Mx ≤ length x)%nat ∧ (My ≤ length y)%nat)) as [[HMx HMy]|Hno].
  - rewrite (build_mesh_take Mx My x y HMx HMy).
    pose proof (build_mesh_exact (take Mx x) (take My y)) as H.
    rewrite !length_take, !Nat.min_l in H by assumption. exact H.
  - apply build_mesh_short. apply not_and_l in Hno. lia.
Qed.

Lemma build_mesh_bounds_witness :
  build_mesh 2 1 [1; 2; 3]%float [10; 20]%float
  = Ok ([[1]; [2]], [[10]; [10]])%float ∧
  build_mesh 4 1 [1; 2; 3]%float [10; 20]%float = Raise IndexError.
Proof.
  split.
  - exact (build_mesh_bounds 2 1 [1; 2; 3]%float [10; 20]%float).
  - exact (build_mesh_bounds 4 1 [1; 2; 3]%float [10; 20]%float).
Defined.

(** ** The buffers after sampling (lines 99-137) *)

Lemma padded_row_length (f : sample → float) (ss : list sample) :
  (length ss ≤ capacity)%nat → length (f <$> padded ss) = 300%nat.
Proof.
  intros H. unfold padded.
  rewrite length_fmap, length_app, length_replicate.
  change capacity with 300%nat in *. lia.
Qed.

Lemma padded_tail (ss : list sample) (k : nat) :
  (length ss ≤ k < capacity)%nat → padded ss !! k = Some sample0.
Proof.
  intros H. unfold padded. rewrite lookup_app_r by lia.
  apply lookup_replicate_2. lia.
Qed.

Lemma packed_shape (f : sample → float) (sss : list (list sample)) :
  Forall (λ ss, (length ss ≤ capacity)%nat) sss →
  length (fmap (M := list) f <$> (padded <$> sss)) = length sss ∧
  Forall (λ row, length row = 300%nat)
         (fmap (M := list) f <$> (padded <$> sss)).
Proof.
  intros H. split; [by rewrite !length_fmap|].
  rewrite <- list_fmap_compose. apply Forall_fmap.
  eapply Forall_impl; [exact H|]. intros ss Hss. simpl.
  by apply padded_row_length.
Qed.

Lemma packed_tail (f : sample → float) (sss : list (list sample))
    (l k : nat) (ss : list sample) :
  f sample0 = 0%float →
  sss !! l = Some ss → (length ss ≤ k < capacity)%nat →
  (fmap (M := list) f <$> (padded <$> sss)) !! l ≫= (.!! k) = Some 0%float.
Proof.
  intros Hf Hss Hk. rewrite !list_lookup_fmap, Hss. simpl.
  rewrite list_lookup_fmap, (padded_tail ss k Hk). simpl. by rewrite Hf.
Qed.

Section AfterSampling.
Context {libm : Libm}.
Variable interpolate_along_transect :
  array2 → Z → Z → float → float → result float.
Variable nearest_along_transect : imask → Z → Z → float → float → result Z.
Variable sn : snapshot.
Variables exp1_xm exp1_ym : array2.

(** X7: when the sampling loops return, each of the seven buffers still
    has its shape (len(trans), 300), and in every row the slots from the
    transect's point count on still hold the 0.0 of the allocation. *)
Theorem buffers_after_sampling (trans : list (list point)) (b : buffers) :
  sample_all interpolate_along_transect nearest_along_transect
    sn exp1_xm exp1_ym trans = Ok b →
  Forall (λ a : array2,
            length a = length trans ∧
            Forall (λ row, length row = 300%nat) a ∧
            ∀ l po k, trans !! l = Some po → (length po ≤ k < 300)%nat →
                      a !! l ≫= (.!! k) = Some 0%float)
         (all_buffers b).
Proof.
  intros Hb.
  destruct (sample_all_Ok _ _ _ _ _ _ _ Hb) as (_ & Hcap & sss & Hsss & ->).
  pose proof (samples_lengths _ _ _ Hsss) as Hlen.
  assert (Forall (λ ss, (length ss ≤ capacity)%nat) sss) as Hcap'.
  { apply Forall_forall. intros ss Hss.
    apply list_elem_of_lookup in Hss as [l Hl].
    destruct (Forall2_lookup_r _ _ _ _ _ Hlen Hl) as (po & Hpo & ->).
    eapply (Forall_lookup_1 _ _ _ _ Hcap Hpo). }
  assert (∀ f : sample → float, f sample0 = 0%float →
            length (fmap (M := list) f <$> (padded <$> sss)) = length trans ∧
            Forall (λ row, length row = 300%nat)
                   (fmap (M := list) f <$> (padded <$> sss)) ∧
            ∀ l po k, trans !! l = Some po → (length po ≤ k < 300)%nat →
              (fmap (M := list) f <$> (padded <$> sss)) !! l ≫= (.!! k)
              = Some 0%float) as Hone.
  { intros f Hf. destruct (packed_shape f sss Hcap') as [H1 H2].
    split; [by rewrite H1, (Forall2_length _ _ _ Hlen)|]. split; [exact H2|].
    intros l po k Hpo Hk.
    destruct (Forall2_lookup_l _ _ _ _ _ Hlen Hpo) as (ss & Hss & Hl).
    apply (packed_tail f sss l k ss Hf Hss). rewrite Hl. exact Hk. }
  unfold all_buffers, pack. simpl.
  repeat (apply Forall_cons; split; [apply Hone; reflexivity|]).
  apply Forall_nil_2.
Qed.

End AfterSampling.

Lemma buffers_after_sampling_witness :
  ∃ b, sample_all Helper.interpolate_along_transect
         Helper.nearest_along_transect Fixture.snap Fixture.xm Fixture.ym
         [[(0, 0); (1, 1)]%float] = Ok b ∧
       Forall (λ a : array2, length a = 1%nat ∧
                             a !! 0%nat ≫= (.!! 2%nat) = Some 0%float)
              (all_buffers b).
Proof.
  assert (∃ b, sample_all Helper.interpolate_along_transect
                 Helper.nearest_along_transect Fixture.snap Fixture.xm
                 Fixture.ym [[(0, 0); (1, 1)]%float] = Ok b) as [b Hb]
    by (vm_compute; eexists; reflexivity).
  exists b. split; [exact Hb|].
  eapply Forall_impl; [exact (buffers_after_sampling _ _ _ _ _ _ b Hb)|].
  intros a (Hlen & _ & Htail). split; [exact Hlen|].
  apply (Htail 0%nat [(0, 0); (1, 1)]%float 2%nat eq_refl). simpl. lia.
Defined.

(** ** How a run ends (lines 77-139 and 173-319) *)

Section Endings.
Context {libm : Libm}.
Variable get_troughs : list transect → float → result (list (list point)).
Variable interpolate_along_transect :
  array2 → Z → Z → float → float → result float.
Variable nearest_along_transect : imask → Z → Z → float → float → result Z.

Abbreviation run_of :=
  (run get_troughs interpolate_along_transect nearest_along_transect).
Abbreviation prepare_of :=
  (prepare get_troughs interpolate_along_transect nearest_along_transect).
Abbreviation sample_of sn xm ym :=
  (point_sample interpolate_along_transect nearest_along_transect sn xm ym).

(** X6: the x axis is indexed by the first extent of the mask and the y
    axis by the second; if either axis is shorter than that extent the
    run ends with IndexError before the output file is opened. *)
Theorem axis_shorter_than_mask (ds ts : Dataset) (sn : snapshot)
    (tsr : timeseries) (trans : list (list point)) :
  read_snapshot ds = Ok sn → read_timeseries ts = Ok tsr →
  get_troughs (planned sn) dp = Ok trans →
  (length (exp1_x sn) < (grid sn).1)%nat ∨
  (length (exp1_y sn) < (grid sn).2)%nat →
  run_of ds ts = Crashed IndexError.
Proof.
  intros Hsn Hts Htr Hshort. unfold run.
  rewrite (prepare_after_reading _ _ _ ds ts sn tsr Hsn Hts), Htr.
  cbn [mbind result_bind]. rewrite (build_mesh_short _ _ _ _ Hshort).
  reflexivity.
Qed.

(** X8: if the helpers raise at some sample point (and the transects fit
    the buffers), the run ends with that exception, the first one in
    transect order and point order, before the output file is opened. *)
Theorem sampling_failure_propagates (ds ts : Dataset) (sn : snapshot)
    (tsr : timeseries) (trans : list (list point)) (xm ym : array2)
    (e : exn) :
  read_snapshot ds = Ok sn → read_timeseries ts = Ok tsr →
  get_troughs (planned sn) dp = Ok trans →
  build_mesh (grid sn).1 (grid sn).2 (exp1_x sn) (exp1_y sn) = Ok (xm, ym) →
  (length trans ≤ 8)%nat →
  Forall (λ po, (length po ≤ 300)%nat) trans →
  mapM (mapM (sample_of sn xm ym)) trans = Raise e →
  run_of ds ts = Crashed e ∧ file_created (run_of ds ts) = false.
Proof.
  intros Hsn Hts Htr Hmesh Hn Hcap Hfail.
  assert (run_of ds ts = Crashed e) as Hrun.
  { unfold run.
    rewrite (prepare_after_reading _ _ _ ds ts sn tsr Hsn Hts), Htr.
    cbn [mbind result_bind]. rewrite Hmesh. cbn [mbind result_bind].
    rewrite (sample_all_in_bounds _ _ _ _ _ trans Hn Hcap), Hfail.
    reflexivity. }
  rewrite Hrun. split; reflexivity.
Qed.


End Endings.

Lemma axis_shorter_than_mask_witness :
  run_model Fixture2.short_axis_file Fixture.ts_file = Crashed IndexError.
Proof.
  destruct (read_snapshot Fixture2.short_axis_file) as [sn|] eqn:Hsn;
    [|vm_compute in Hsn; discriminate].
  destruct (read_timeseries Fixture.ts_file) as [tsr|] eqn:Hts;
    [|vm_compute in Hts; discriminate].
  destruct (Helper.get_troughs (planned sn) dp) as [trans|] eqn:Htr;
    [|evaluate Hsn; vm_compute in Htr; discriminate].
  apply (axis_shorter_than_mask Helper.get_troughs
           Helper.interpolate_along_transect Helper.nearest_along_transect
           _ _ sn tsr trans Hsn Hts Htr).
  left. evaluate Hsn. vm_compute. lia.
Defined.

Lemma sampling_failure_propagates_witness :
  run Helper.get_troughs Fixture2.no_thickness Helper.nearest_along_transect
    (Fixture.snapshot_file Fixture.primary 5 2) Fixture.ts_file
  = Crashed (HelperError "thickness").
Proof.
  destruct (read_snapshot (Fixture.snapshot_file Fixture.primary 5 2))
    as [sn|] eqn:Hsn; [|vm_compute in Hsn; discriminate].
  destruct (read_timeseries Fixture.ts_file) as [tsr|] eqn:Hts;
    [|vm_compute in Hts; discriminate].
  destruct (Helper.get_troughs (planned sn) dp) as [trans|] eqn:Htr;
    [|evaluate Hsn; vm_compute in Htr; discriminate].
  destruct (build_mesh (grid sn).1 (grid sn).2 (exp1_x sn) (exp1_y sn))
    as [[xm ym]|] eqn:Hmesh; [|evaluate Hsn; vm_compute in Hmesh; discriminate].
  apply (sampling_failure_propagates Helper.get_troughs Fixture2.no_thickness
           Helper.nearest_along_transect _ _ sn tsr trans xm ym _
           Hsn Hts Htr Hmesh).
  - evaluate Hsn. evaluate Htr. simpl. lia.
  - evaluate Hsn. evaluate Htr.
    repeat (apply Forall_cons; split; [simpl; lia|]). apply Forall_nil_2.
  - evaluate Hsn. evaluate Htr. evaluate Hmesh. vm_compute. reflexivity.
Defined.


(** ** The zero-to-NaN rule as an operation (lines 169-171) *)

Lemma nan_if_zero_not_zero (v : float) :
  PrimFloat.eqb (nan_if_zero v) 0%float = false.
Proof.
  unfold nan_if_zero. destruct (PrimFloat.eqb v 0%float) eqn:Hv;
    [reflexivity|exact Hv].
Qed.

Lemma nan_if_zero_idem (v : float) :
  nan_if_zero (nan_if_zero v) = nan_if_zero v.
Proof.
  unfold nan_if_zero at 2 3. destruct (PrimFloat.eqb v 0%float) eqn:Hv.
  - reflexivity.
  - unfold nan_if_zero. rewrite Hv. reflexivity.
Qed.

(** X10: replacing zeros by NaN keeps the shape of the field, leaves no
    cell that compares equal to zero, keeps NaN cells NaN, and applying
    it a second time changes nothing. *)
Theorem normalize_leaves_no_zero (a : array2) :
  length (normalize a) = length a ∧
  (∀ r, length <$> normalize a !! r = length <$> a !! r) ∧
  (∀ r c v, normalize a !! r ≫= (.!! c) = Some v →
            PrimFloat.eqb v 0%float = false) ∧
  (∀ r c, a !! r ≫= (.!! c) = Some PrimFloat.nan →
          normalize a !! r ≫= (.!! c) = Some PrimFloat.nan) ∧
  normalize (normalize a) = normalize a.
Proof.
  split; [apply length_fmap|]. split.
  { intros r. unfold normalize. rewrite list_lookup_fmap.
    destruct (a !! r) as [row|]; simpl; [|reflexivity].
    by rewrite length_fmap. }
  split.
  { intros r c v. rewrite normalize_lookup.
    destruct (a !! r ≫= (.!! c)) as [w|]; simpl; [|discriminate].
    intros [= <-]. apply nan_if_zero_not_zero. }
  split.
  { intros r c H. rewrite normalize_lookup, H. reflexivity. }
  unfold normalize. rewrite <- list_fmap_compose.
  apply list_fmap_ext. intros _ row _. simpl.
  rewrite <- list_fmap_compose. apply list_fmap_ext. intros _ v _.
  apply nan_if_zero_idem.
Qed.

(** ** More on the planner (lines 61-72) *)

Lemma Mp_bounds (Mx : Z) : 4 ≤ Mx → 1 ≤ Mp Mx ≤ Mx - 2.
Proof.
  intros H. destruct (Z.odd Mx) eqn:Hodd.
  - pose proof (Mp_odd Mx Hodd). lia.
  - assert (Z.even Mx = true) as Hev by (rewrite <- Z.negb_odd, Hodd; reflexivity).
    pose proof (Mp_even Mx Hev). lia.
Qed.

(** X11: on a grid of at least 4 x 4 cells whose column count leaves room
    for the start column (Mp, computed from Mx, at most My - 2), every
    start and every end of the eight transects is a valid index pair
    with at least one further cell above it in both directions. *)
Theorem transects_inside_grid (Mx My : Z) :
  4 ≤ Mx → 4 ≤ My → Mp Mx ≤ My - 2 →
  Forall (λ t, (0 ≤ (t_start t).1 ≤ Mx - 2 ∧ 0 ≤ (t_start t).2 ≤ My - 2) ∧
               (0 ≤ (t_end t).1 ≤ Mx - 2 ∧ 0 ≤ (t_end t).2 ≤ My - 2))
         (transects Mx My).
Proof.
  intros HMx HMy Hcol. pose proof (Mp_bounds Mx HMx) as Hb.
  unfold transects, points_A, points_B, points_C, points_D, points_E,
    points_F, points_G, points_H.
  revert Hcol Hb. generalize (Mp Mx). intros c Hcol Hb.
  repeat (apply Forall_cons; split; [simpl; lia|]). apply Forall_nil_2.
Qed.

Lemma transects_inside_grid_witness :
  Forall (λ t, (0 ≤ (t_start t).1 ≤ 5 ∧ 0 ≤ (t_start t).2 ≤ 5) ∧
               (0 ≤ (t_end t).1 ≤ 5 ∧ 0 ≤ (t_end t).2 ≤ 5))
         (transects 7 7).
Proof.
  apply (transects_inside_grid 7 7); [lia|lia|vm_compute; discriminate].
Defined.

(** With fewer columns than half the rows the start column lies outside
    the grid. *)
Example start_column_outside_narrow_grid :
  Forall (λ t, (t_start t).2 = 5) (transects 11 4) ∧ ¬ 5 ≤ 4 - 1.
Proof.
  split; [|lia].
  repeat (apply Forall_cons; split; [reflexivity|]). apply Forall_nil_2.
Qed.

(** X12: on a square grid with an odd extent 2m+1 the transects that run
    to the high side (A along the columns, C along the rows) end m-1
    cells from the start, those that run to the low side (E, G) end m-2
    cells from it: opposite transects differ by one cell. *)
Theorem opposite_transects_differ (Mx : Z) :
  Z.odd Mx = true →
  (t_end (points_A Mx Mx)).2 - (t_start (points_A Mx Mx)).2 = Mp Mx - 1 ∧
  (t_start (points_E Mx)).2 - (t_end (points_E Mx)).2 = Mp Mx - 2 ∧
  (t_end (points_C Mx)).1 - (t_start (points_C Mx)).1 = Mp Mx - 1 ∧
  (t_start (points_G Mx)).1 - (t_end (points_G Mx)).1 = Mp Mx - 2.
Proof.
  intros Hodd. pose proof (Mp_odd Mx Hodd) as H.
  unfold points_A, points_E, points_C, points_G. simpl. lia.
Qed.

Lemma opposite_transects_differ_witness :
  (t_end (points_A 301 301)).2 - (t_start (points_A 301 301)).2 = 149 ∧
  (t_start (points_E 301)).2 - (t_end (points_E 301)).2 = 148.
Proof.
  destruct (opposite_transects_differ 301 eq_refl) as (HA & HE & _).
  split; [exact HA|exact HE].
Defined.

(** * The configuration accessors *)

Section ConfigFacts.
Variables config key value : Type.
Variables get_flag get_number get_numbers get_string _get :
  key → Config.method config value.
Variables set_flag set_number set_numbers set_string _set :
  key → value → Config.method config unit.

(** Four methods tried in order, then a last one: the first that returns
    decides; the last one is reached only after four exceptions, and only
    its exception can come out. *)
Lemma first_success_four {A} (m1 m2 m3 m4 last : Config.method config A)
    (c : config) :
  (∀ c1 a, m1 c = (c1, Ok a) →
     Config.first_success config [m1; m2; m3; m4] last c = (c1, Ok a)) ∧
  (∀ c1 e1 c2 a, m1 c = (c1, Raise e1) → m2 c1 = (c2, Ok a) →
     Config.first_success config [m1; m2; m3; m4] last c = (c2, Ok a)) ∧
  (∀ c1 e1 c2 e2 c3 a,
     m1 c = (c1, Raise e1) → m2 c1 = (c2, Raise e2) → m3 c2 = (c3, Ok a) →
     Config.first_success config [m1; m2; m3; m4] last c = (c3, Ok a)) ∧
  (∀ c1 e1 c2 e2 c3 e3 c4 a,
     m1 c = (c1, Raise e1) → m2 c1 = (c2, Raise e2) →
     m3 c2 = (c3, Raise e3) → m4 c3 = (c4, Ok a) →
     Config.first_success config [m1; m2; m3; m4] last c = (c4, Ok a)) ∧
  (∀ c1 e1 c2 e2 c3 e3 c4 e4,
     m1 c = (c1, Raise e1) → m2 c1 = (c2, Raise e2) →
     m3 c2 = (c3, Raise e3) → m4 c3 = (c4, Raise e4) →
     Config.first_success config [m1; m2; m3; m4] last c = last c4) ∧
  (∀ c' e,
     Config.first_success config [m1; m2; m3; m4] last c = (c', Raise e) →
     ∃ c1 e1 c2 e2 c3 e3 c4 e4,
       m1 c = (c1, Raise e1) ∧ m2 c1 = (c2, Raise e2) ∧
       m3 c2 = (c3, Raise e3) ∧ m4 c3 = (c4, Raise e4) ∧
       last c4 = (c', Raise e)).
Proof.
  simpl. repeat split.
  - intros c1 a ->. reflexivity.
  - intros c1 e1 c2 a -> ->. reflexivity.
  - intros c1 e1 c2 e2 c3 a -> -> ->. reflexivity.
  - intros c1 e1 c2 e2 c3 e3 c4 a -> -> -> ->. reflexivity.
  - intros c1 e1 c2 e2 c3 e3 c4 e4 -> -> -> ->. reflexivity.
  - intros c' e.
    destruct (m1 c) as [c1 [a|e1]] eqn:H1; [discriminate|].
    destruct (m2 c1) as [c2 [a|e2]] eqn:H2; [discriminate|].
    destruct (m3 c2) as [c3 [a|e3]] eqn:H3; [discriminate|].
    destruct (m4 c3) as [c4 [a|e4]] eqn:H4; [discriminate|].
    intros H. exists c1, e1, c2, e2, c3, e3, c4, e4.
    repeat split; first [reflexivity|assumption].
Qed.

(** X13: [get] returns what the first of get_flag, get_number,
    get_numbers, get_string that does not raise returns, whatever the
    later ones would do; the exceptions of these four are discarded;
    [_get] is called only after all four raised, and an exception of
    [get] is always the one [_get] raised. *)
Theorem get_first_success (k : key) (c : config) :
  (∀ c1 v, get_flag k c = (c1, Ok v) → Config.get config key value
     get_flag get_number get_numbers get_string _get k c = (c1, Ok v)) ∧
  (∀ c1 e1 c2 v, get_flag k c = (c1, Raise e1) →
     get_number k c1 = (c2, Ok v) → Config.get config key value
     get_flag get_number get_numbers get_string _get k c = (c2, Ok v)) ∧
  (∀ c1 e1 c2 e2 c3 v, get_flag k c = (c1, Raise e1) →
     get_number k c1 = (c2, Raise e2) → get_numbers k c2 = (c3, Ok v) →
     Config.get config key value
     get_flag get_number get_numbers get_string _get k c = (c3, Ok v)) ∧
  (∀ c1 e1 c2 e2 c3 e3 c4 v, get_flag k c = (c1, Raise e1) →
     get_number k c1 = (c2, Raise e2) → get_numbers k c2 = (c3, Raise e3) →
     get_string k c3 = (c4, Ok v) → Config.get config key value
     get_flag get_number get_numbers get_string _get k c = (c4, Ok v)) ∧
  (∀ c1 e1 c2 e2 c3 e3 c4 e4, get_flag k c = (c1, Raise e1) →
     get_number k c1 = (c2, Raise e2) → get_numbers k c2 = (c3, Raise e3) →
     get_string k c3 = (c4, Raise e4) → Config.get config key value
     get_flag get_number get_numbers get_string _get k c = _get k c4) ∧
  (∀ c' e, Config.get config key value
     get_flag get_number get_numbers get_string _get k c = (c', Raise e) →
     ∃ c1 e1 c2 e2 c3 e3 c4 e4,
       get_flag k c = (c1, Raise e1) ∧ get_number k c1 = (c2, Raise e2) ∧
       get_numbers k c2 = (c3, Raise e3) ∧ get_string k c3 = (c4, Raise e4) ∧
       _get k c4 = (c', Raise e)).
Proof.
  exact (first_success_four (get_flag k) (get_number k) (get_numbers k)
           (get_string k) (_get k) c).
Qed.

(** X14: [set] stops at the first of set_flag, set_number, set_numbers,
    set_string that does not raise and keeps the configuration it left,
    whichever of the four that is; a setter that raised is followed by
    the next one on the configuration it left behind; [_set] runs only
    after all four raised, and an exception of [set] is always the one
    [_set] raised. *)
Theorem set_first_success (k : key) (val : value) (c : config) :
  (∀ c1 u, set_flag k val c = (c1, Ok u) → Config.set config key value
     set_flag set_number set_numbers set_string _set k val c = (c1, Ok u)) ∧
  (∀ c1 e1 c2 u, set_flag k val c = (c1, Raise e1) →
     set_number k val c1 = (c2, Ok u) → Config.set config key value
     set_flag set_number set_numbers set_string _set k val c = (c2, Ok u)) ∧
  (∀ c1 e1 c2 e2 c3 u, set_flag k val c = (c1, Raise e1) →
     set_number k val c1 = (c2, Raise e2) →
     set_numbers k val c2 = (c3, Ok u) → Config.set config key value
     set_flag set_number set_numbers set_string _set k val c = (c3, Ok u)) ∧
  (∀ c1 e1 c2 e2 c3 e3 c4 u, set_flag k val c = (c1, Raise e1) →
     set_number k val c1 = (c2, Raise e2) →
     set_numbers k val c2 = (c3, Raise e3) →
     set_string k val c3 = (c4, Ok u) → Config.set config key value
     set_flag set_number set_numbers set_string _set k val c = (c4, Ok u)) ∧
  (∀ c1 e1 c2 e2 c3 e3 c4 e4, set_flag k val c = (c1, Raise e1) →
     set_number k val c1 = (c2, Raise e2) →
     set_numbers k val c2 = (c3, Raise e3) →
     set_string k val c3 = (c4, Raise e4) →
     Config.set config key value
     set_flag set_number set_numbers set_string _set k val c = _set k val c4) ∧
  (∀ c' e, Config.set config key value
     set_flag set_number set_numbers set_string _set k val c = (c', Raise e) →
     ∃ c1 e1 c2 e2 c3 e3 c4 e4,
       set_flag k val c = (c1, Raise e1) ∧
       set_number k val c1 = (c2, Raise e2) ∧
       set_numbers k val c2 = (c3, Raise e3) ∧
       set_string k val c3 = (c4, Raise e4) ∧
       _set k val c4 = (c', Raise e)).
Proof.
  exact (first_success_four (set_flag k val) (set_number k val)
           (set_numbers k val) (set_string k val) (_set k val) c).
Qed.

Lemma set_from_dict_app (d1 d2 : list (key * value)) :
  ∀ c, (Config.set_from_dict config key value
     set_flag set_number set_numbers set_string _set) (d1 ++ d2) c =
       match (Config.set_from_dict config key value
     set_flag set_number set_numbers set_string _set) d1 c with
       | (c1, Ok _) => (Config.set_from_dict config key value
     set_flag set_number set_numbers set_string _set) d2 c1
       | (c1, Raise e) => (c1, Raise e)
       end.
Proof.
  induction d1 as [|[k val] d1 IH]; intros c; [reflexivity|].
  simpl. destruct (Config.set _ _ _ _ _ _ _ _ k val c) as [c1 [u|e]];
    [apply IH|reflexivity].
Qed.

(** X15: [set_from_dict] sets the items in iteration order, each on the
    configuration the previous one left: an item whose [set] returns is
    set, and the remaining items go on from the configuration that [set]
    left; a dictionary of one such item leaves exactly that
    configuration; two dictionaries in a row act as their concatenation;
    the first item whose [set] raises ends the loop with that exception,
    an exception of [_set], and the items after it are not set. *)
Theorem set_from_dict_in_order (d1 d2 : list (key * value)) (c : config) :
  (Config.set_from_dict config key value
     set_flag set_number set_numbers set_string _set) [] c = (c, Ok tt) ∧
  (∀ k val c1 u,
     Config.set config key value
     set_flag set_number set_numbers set_string _set k val c = (c1, Ok u) →
     (Config.set_from_dict config key value
     set_flag set_number set_numbers set_string _set) [(k, val)] c = (c1, Ok tt) ∧
     (Config.set_from_dict config key value
     set_flag set_number set_numbers set_string _set) ((k, val) :: d2) c =
     (Config.set_from_dict config key value
     set_flag set_number set_numbers set_string _set) d2 c1) ∧
  (∀ k val c1 c2 u,
     (Config.set_from_dict config key value
     set_flag set_number set_numbers set_string _set) d1 c = (c1, Ok tt) →
     Config.set config key value
     set_flag set_number set_numbers set_string _set k val c1 = (c2, Ok u) →
     (Config.set_from_dict config key value
     set_flag set_number set_numbers set_string _set) (d1 ++ [(k, val)]) c = (c2, Ok tt)) ∧
  (Config.set_from_dict config key value
     set_flag set_number set_numbers set_string _set) (d1 ++ d2) c =
    match (Config.set_from_dict config key value
     set_flag set_number set_numbers set_string _set) d1 c with
    | (c1, Ok _) => (Config.set_from_dict config key value
     set_flag set_number set_numbers set_string _set) d2 c1
    | (c1, Raise e) => (c1, Raise e)
    end ∧
  (∀ k val c1 c2 e,
     (Config.set_from_dict config key value
     set_flag set_number set_numbers set_string _set) d1 c = (c1, Ok tt) →
     Config.set config key value
     set_flag set_number set_numbers set_string _set k val c1 = (c2, Raise e) →
     (Config.set_from_dict config key value
     set_flag set_number set_numbers set_string _set) (d1 ++ (k, val) :: d2) c = (c2, Raise e) ∧
     ∃ c0, _set k val c0 = (c2, Raise e)).
Proof.
  split; [reflexivity|]. split; [|split; [|split; [apply set_from_dict_app|]]].
  - intros k val c1 u Hset. simpl. rewrite Hset. split; reflexivity.
  - intros k val c1 c2 u Hd1 Hset.
    rewrite set_from_dict_app, Hd1. simpl. rewrite Hset. reflexivity.
  - intros k val c1 c2 e Hd1 Hset.
    rewrite set_from_dict_app, Hd1. simpl. rewrite Hset.
    split; [reflexivity|].
    destruct (first_success_four (set_flag k val) (set_number k val)
                (set_numbers k val) (set_string k val) (_set k val) c1)
      as (_ & _ & _ & _ & _ & Horigin).
    destruct (Horigin c2 e Hset) as (? & ? & ? & ? & ? & ? & c4 & ? & _ & _ & _ & _ & H).
    by exists c4.
Qed.

End ConfigFacts.

Lemma get_first_success_witness :
  Config.table_get "n" (<["n" := Config.Number 3]> ∅)
  = (<["n" := Config.Number 3]> ∅, Ok (Config.Number 3)).
Proof.
  refine (proj1 (proj2 (get_first_success _ _ _ Config.lookup_flag
            Config.lookup_number _ _ _ "n"%string _)) _ (KeyError "n") _ _ _ _);
    reflexivity.
Defined.

Lemma set_first_success_witness :
  Config.set Config.table string Config.entry
    Config.store_flag Config.store_number
    (λ k _, Config.reject k tt) (λ k _, Config.reject k tt)
    (λ k _, Config.reject k tt) "n" (Config.Number 3) ∅
  = (<["n" := Config.Number 3]> ∅, Ok tt) ∧
  Config.set Config.table string Config.entry
    (λ k _, Config.reject k tt) (λ k _, Config.reject k tt)
    Config.store_flag Config.store_number
    (λ k _, Config.reject k tt) "n" (Config.Number 3) ∅
  = (<["n" := Config.Number 3]> ∅, Ok tt).
Proof.
  split.
  - refine (proj1 (proj2 (set_first_success _ _ _ Config.store_flag
              Config.store_number _ _ _ "n"%string (Config.Number 3) ∅))
              _ ValueError _ _ _ _); reflexivity.
  - refine (proj1 (proj2 (proj2 (proj2 (set_first_success _ _ _ _ _
              Config.store_flag Config.store_number _
              "n"%string (Config.Number 3) ∅))))
              ∅ (KeyError "n") ∅ (KeyError "n") ∅ ValueError _ _ _ _ _ _);
      reflexivity.
Defined.

Lemma set_from_dict_in_order_witness :
  Config.table_set_from_dict
    ([("a"%string, Config.Flag true)] ++
     ("t"%string, Config.Text "x") :: [("n"%string, Config.Number 1)]) ∅
  = (<["a" := Config.Flag true]> ∅, Raise (KeyError "t")) ∧
  Config.table_set_from_dict
    ([("a"%string, Config.Flag true)] ++ [("n"%string, Config.Number 1)]) ∅
  = (<["n" := Config.Number 1]> (<["a" := Config.Flag true]> ∅), Ok tt).
Proof.
  split.
  - apply (proj2 (proj2 (proj2 (proj2 (set_from_dict_in_order _ _ _
             Config.store_flag Config.store_number _ _ _
             [("a", Config.Flag true)]%string [("n", Config.Number 1)]%string
             ∅))))
           "t"%string (Config.Text "x") (<["a" := Config.Flag true]> ∅));
      reflexivity.
  - apply (proj1 (proj2 (proj2 (set_from_dict_in_order _ _ _
             Config.store_flag Config.store_number _ _ _
             [("a", Config.Flag true)]%string [] ∅)))
           "n"%string (Config.Number 1) (<["a" := Config.Flag true]> ∅)
           _ tt); reflexivity.
Defined.

(** * Missing variables and unusable points *)

Section Aborts.
Context {libm : Libm}.
Variable get_troughs : list transect → float → result (list (list point)).
Variable interpolate_along_transect :
  array2 → Z → Z → float → float → result float.
Variable nearest_along_transect : imask → Z → Z → float → float → result Z.

Abbreviation run_on :=
  (run get_troughs interpolate_along_transect nearest_along_transect).

Lemma read_snapshot_missing (ds : Dataset) :
  vars1 ds !! "y" = None ∨ vars1 ds !! "time" = None ∨
  varsm ds !! "mask" = None ∨
  vars3 ds !! "calvingmip_calving_rate" = None ∨
  vars3 ds !! "topg" = None →
  ∃ e, read_snapshot ds = Raise e.
Proof.
  intros H. unfold read_snapshot, read_mask, read_field, variables.
  destruct H as [H|[H|[H|[H|H]]]]; rewrite ?H;
    repeat match goal with
           | |- context [mbind _ ?m] =>
               lazymatch m with
               | Raise _ => fail
               | _ => destruct m; simpl
               end
           | |- context [match ?o with Some _ => _ | None => _ end] =>
               destruct o; simpl
           | |- context [let '(_, _) := ?p in _] => destruct p; simpl
           end; eauto.
Qed.

(** X16: the snapshot file must hold x, y, time, mask,
    calvingmip_calving_rate and topg.  Without x the run ends with
    KeyError 'x'; with x and y but an empty time axis it ends with
    IndexError; without any of the others it ends with an exception as
    well; in every case before the output file is opened. *)
Theorem snapshot_required_variables (ds ts : Dataset) :
  (vars1 ds !! "x" = None → run_on ds ts = Crashed (KeyError "x")) ∧
  (∀ x y, vars1 ds !! "x" = Some x → vars1 ds !! "y" = Some y →
          vars1 ds !! "time" = Some [] → run_on ds ts = Crashed IndexError) ∧
  (vars1 ds !! "y" = None ∨ vars1 ds !! "time" = None ∨
   varsm ds !! "mask" = None ∨
   vars3 ds !! "calvingmip_calving_rate" = None ∨
   vars3 ds !! "topg" = None →
   ∃ e, run_on ds ts = Crashed e ∧ file_created (run_on ds ts) = false).
Proof.
  split; [|split].
  - intros Hx. apply run_Crashed. unfold read_snapshot, variables.
    rewrite Hx. reflexivity.
  - intros x y Hx Hy Ht. apply run_Crashed. unfold read_snapshot, variables.
    rewrite Hx, Hy, Ht. reflexivity.
  - intros H. destruct (read_snapshot_missing ds H) as [e He].
    exists e. rewrite (run_Crashed _ _ _ ds ts e He). split; reflexivity.
Qed.

(** X17: a sample point whose second coordinate is NaN ends the loop
    step with ValueError, an infinite one with OverflowError, before any
    helper is called and before anything is stored, whatever the first
    coordinate, the buffers and the slot are; in the first transect,
    after fewer than 300 points that could be sampled, this ends the
    sampling with ValueError. *)
Theorem nonfinite_point_rejected (sn : snapshot) (xm ym : array2)
    (l k : nat) (b : buffers) (x : float) :
  sample_point interpolate_along_transect nearest_along_transect
    sn xm ym l b k (x, PrimFloat.nan) = Raise ValueError ∧
  sample_point interpolate_along_transect nearest_along_transect
    sn xm ym l b k (x, PrimFloat.infinity) = Raise OverflowError ∧
  sample_point interpolate_along_transect nearest_along_transect
    sn xm ym l b k (x, PrimFloat.neg_infinity) = Raise OverflowError ∧
  ∀ po1 po2 rest,
    (length po1 < 300)%nat →
    (∃ ss, mapM (point_sample interpolate_along_transect
                   nearest_along_transect sn xm ym) po1 = Ok ss) →
    sample_all interpolate_along_transect nearest_along_transect sn xm ym
      ((po1 ++ (x, PrimFloat.nan) :: po2) :: rest) = Raise ValueError.
Proof.
  do 3 (split; [reflexivity|]).
  intros po1 po2 rest Hlen [ss Hss].
  unfold sample_all. rewrite allocate_pack, for_enumerate_cons.
  rewrite sample_transect_eq, for_enumerate_app.
  change (length (_ :: rest)) with (S (length rest)).
  rewrite (inner_loop_in_bounds _ _ _ _ _ po1 _ _ 0%nat 0%nat
             (fresh_row_lookup [] (length rest)))
    by (rewrite length_replicate; change capacity with 300%nat; simpl; lia).
  rewrite Hss. reflexivity.
Qed.

End Aborts.

Lemma snapshot_required_variables_witness :
  run_model Fixture2.no_x_file Fixture.ts_file = Crashed (KeyError "x") ∧
  run_model Fixture2.no_time_file Fixture.ts_file = Crashed IndexError.
Proof.
  split.
  - apply (proj1 (snapshot_required_variables Helper.get_troughs
             Helper.interpolate_along_transect Helper.nearest_along_transect
             Fixture2.no_x_file Fixture.ts_file)). reflexivity.
  - apply (proj1 (proj2 (snapshot_required_variables Helper.get_troughs
             Helper.interpolate_along_transect Helper.nearest_along_transect
             Fixture2.no_time_file Fixture.ts_file))
           (Fixture.axis 5) (Fixture.axis 5)); reflexivity.
Defined.

Lemma nonfinite_point_rejected_witness :
  sample_all Helper.interpolate_along_transect Helper.nearest_along_transect
    Fixture.snap Fixture.xm Fixture.ym
    [[(0, 0); (1, PrimFloat.nan); (1, 1)]%float] = Raise ValueError.
Proof.
  apply (proj2 (proj2 (proj2 (nonfinite_point_rejected
           Helper.interpolate_along_transect Helper.nearest_along_transect
           Fixture.snap Fixture.xm Fixture.ym 0 0 (allocate 1) 1%float)))
         [(0, 0)%float] [(1, 1)%float] []).
  - simpl. lia.
  - vm_compute. eexists. reflexivity.
Defined.
